(** * A resumable archive crawler: [scraper/scrape.py]

    A shallow embedding of the crawl engine of [scrape.py]: the frontier
    ([CrawlState]), the statistics ([Stats]), the retrying fetcher
    ([fetch_page] under its [tenacity] policy), the persistence functions and
    the loop of [crawl_site], followed by the properties of the
    specification that concern them.

    Conventions.
    - A Python [str] is a [string]: the bytes of its UTF-8 encoding.
      A slice counts characters, each a lead byte with the continuation
      bytes behind it ([str_take]).
    - A Python [int] is a [Z]; durations are whole seconds in [Z].
    - A [dict] is an association list in insertion order ([dict]), a
      [set] of strings is a [gset string].
    - A function that may raise returns a sum-like result whose second
      case carries what had been written when the exception escaped. *)

From Stdlib Require Import ZArith List String Ascii Bool Lia DecimalString.
From stdpp Require Import base decidable option list gmap strings.
Import ListNotations.

Local Open Scope string_scope.
Local Open Scope Z_scope.
Local Open Scope list_scope.

(** ** Python strings and dictionaries *)

(** [s.partition(c)]: the text before the first [c], and the text after it
    when [c] occurs. *)
Fixpoint str_partition (c : ascii) (s : string) : string * option string :=
  match s with
  | EmptyString => (EmptyString, None)
  | String a r =>
      if Ascii.eqb a c then (EmptyString, Some r)
      else let (h, t) := str_partition c r in (String a h, t)
  end.

(** [s.split(c)]: never empty, one more field than occurrences of [c]. *)
Fixpoint str_split (c : ascii) (s : string) : list string :=
  match s with
  | EmptyString => [EmptyString]
  | String a r =>
      if Ascii.eqb a c then EmptyString :: str_split c r
      else match str_split c r with
           | h :: t => String a h :: t
           | [] => [String a EmptyString]
           end
  end.

(** [s.replace(a, b)] for single characters. *)
Fixpoint str_replace (a b : ascii) (s : string) : string :=
  match s with
  | EmptyString => EmptyString
  | String c r => String (if Ascii.eqb c a then b else c) (str_replace a b r)
  end.

(** A byte [10xxxxxx], which continues a character of UTF-8. *)
Definition continuation_byte (a : ascii) : bool :=
  let n := nat_of_ascii a in
  ((128 <=? n) && (n <? 192))%nat.

(** [s[:n]]: the first [n] characters. *)
Fixpoint str_take (n : nat) (s : string) : string :=
  match s with
  | EmptyString => EmptyString
  | String c r =>
      if continuation_byte c then String c (str_take n r)
      else match n with
           | O => EmptyString
           | S n' => String c (str_take n' r)
           end
  end.

Definition str_empty (s : string) : bool :=
  match s with EmptyString => true | _ => false end.

Fixpoint str_contains (c : ascii) (s : string) : bool :=
  match s with
  | EmptyString => false
  | String a r => Ascii.eqb a c || str_contains c r
  end.

(** [s.isascii()] *)
Fixpoint str_isascii (s : string) : bool :=
  match s with
  | EmptyString => true
  | String a r => (nat_of_ascii a <? 128)%nat && str_isascii r
  end.

(** A [dict] with string keys, in insertion order. *)
Definition dict (V : Type) : Type := list (string * V).

Fixpoint dict_get {V} (k : string) (d : dict V) : option V :=
  match d with
  | [] => None
  | (k', v) :: r => if String.eqb k k' then Some v else dict_get k r
  end.

(** [k in d]. *)
Definition dict_mem {V} (k : string) (d : dict V) : bool :=
  match dict_get k d with Some _ => true | None => false end.

(** [d[k] = v]: in place when [k] is a key, at the end otherwise. *)
Fixpoint dict_set {V} (k : string) (v : V) (d : dict V) : dict V :=
  match d with
  | [] => [(k, v)]
  | (k', v') :: r =>
      if String.eqb k k' then (k, v) :: r else (k', v') :: dict_set k v r
  end.

(** [d.get(k, default)]. *)
Definition dict_get_default {V} (k : string) (default : V) (d : dict V) : V :=
  match dict_get k d with Some v => v | None => default end.

(** ** [urllib.parse]: the query of a URL and its parameters *)

Module UrlLib.

(** [urlsplit] first strips leading C0 control characters and spaces and
    removes every tab, carriage return and line feed. *)
Definition c0_control_or_space (a : ascii) : bool :=
  (nat_of_ascii a <=? 32)%nat.

Fixpoint lstrip_c0 (s : string) : string :=
  match s with
  | String a r => if c0_control_or_space a then lstrip_c0 r else s
  | EmptyString => EmptyString
  end.

Definition unsafe_url_byte (a : ascii) : bool :=
  let n := nat_of_ascii a in
  ((n =? 9) || (n =? 10) || (n =? 13))%nat.

Fixpoint remove_unsafe (s : string) : string :=
  match s with
  | EmptyString => EmptyString
  | String a r =>
      if unsafe_url_byte a then remove_unsafe r else String a (remove_unsafe r)
  end.

(** The characters of a scheme: [scheme_chars]. *)
Definition ascii_letter (a : ascii) : bool :=
  let n := nat_of_ascii a in
  (((65 <=? n) && (n <=? 90)) || ((97 <=? n) && (n <=? 122)))%nat.

Definition scheme_char (a : ascii) : bool :=
  let n := nat_of_ascii a in
  ascii_letter a || ((48 <=? n) && (n <=? 57))%nat
  || Ascii.eqb a "+" || Ascii.eqb a "-" || Ascii.eqb a ".".

Fixpoint scheme_chars (s : string) : bool :=
  match s with
  | EmptyString => true
  | String a r => scheme_char a && scheme_chars r
  end.

(** What [urlsplit] goes on with once it has taken the scheme: the text
    behind the first [":"] when the text before it is not empty, starts
    with an ASCII letter and is made of scheme characters. *)
Definition after_scheme (url : string) : string :=
  match str_partition ":" url with
  | (String a scheme, Some rest) =>
      if ascii_letter a && scheme_chars scheme then rest else url
  | _ => url
  end.

(** [_splitnetloc(url, 2)[0]]: up to the first of ["/"], ["?"] and ["#"]. *)
Fixpoint before_delimiter (s : string) : string :=
  match s with
  | EmptyString => EmptyString
  | String a r =>
      if Ascii.eqb a "/" || Ascii.eqb a "?" || Ascii.eqb a "#" then EmptyString
      else String a (before_delimiter r)
  end.

(** [urlsplit(url).netloc]: the network location, which is there when
    ["//"] follows the scheme. *)
Definition netloc (url : string) : string :=
  match after_scheme (remove_unsafe (lstrip_c0 url)) with
  | String a (String b r) =>
      if Ascii.eqb a "/" && Ascii.eqb b "/" then before_delimiter r else ""
  | _ => ""
  end.

(** [urlparse(url).query].  [urlsplit] cuts the fragment at the first
    ["#"] and then the query at the first ["?"] of what is left.  The
    scheme and the network location it removes before that never hold a
    ["#"] or a ["?"] (a scheme is made of letters, digits, ["+"], ["-"]
    and ["."]; the location ends before the first of ["/"], ["?"] and
    ["#"]), so both cuts fall where they fall in the whole URL.  This is
    the query when [urlsplit] returns; it raises [ValueError] on some
    network locations, see [urlparse_raises]. *)
Definition query (url : string) : string :=
  let url := remove_unsafe (lstrip_c0 url) in
  let (url, _) := str_partition "#" url in
  match str_partition "?" url with
  | (_, Some q) => q
  | (_, None) => ""
  end.

Definition hex_value (a : ascii) : option nat :=
  let n := nat_of_ascii a in
  if ((48 <=? n) && (n <=? 57))%nat then Some (n - 48)%nat
  else if ((65 <=? n) && (n <=? 70))%nat then Some (n - 55)%nat
  else if ((97 <=? n) && (n <=? 102))%nat then Some (n - 87)%nat
  else None.

(** [unquote_to_bytes]: every ["%XX"] with two hexadecimal digits becomes
    the byte [XX]; any other ["%"] stays. *)
Fixpoint unquote_to_bytes (s : string) : string :=
  match s with
  | EmptyString => EmptyString
  | String c r =>
      if Ascii.eqb c "%" then
        match r with
        | String h (String l r') =>
            match hex_value h, hex_value l with
            | Some x, Some y =>
                String (ascii_of_nat (16 * x + y)) (unquote_to_bytes r')
            | _, _ => String c (unquote_to_bytes r)
            end
        | _ => String c (unquote_to_bytes r)
        end
      else String c (unquote_to_bytes r)
  end.

Definition byte_in (lo hi : nat) (a : ascii) : bool :=
  let n := nat_of_ascii a in
  ((lo <=? n) && (n <=? hi))%nat.

(** U+FFFD, the replacement character, in UTF-8. *)
Definition replacement (rest : string) : string :=
  String (ascii_of_nat 239) (String (ascii_of_nat 191)
    (String (ascii_of_nat 189) rest)).

(** [bytes.decode("utf-8", "replace")], the result in UTF-8 again: a
    well-formed character stays; what is ill-formed becomes U+FFFD, one for
    a byte that starts no character, and one for the start of a
    character that is cut short, by the next byte or by the end. *)
Fixpoint decode_replace (s : string) : string :=
  match s with
  | EmptyString => EmptyString
  | String a r =>
      let n := nat_of_ascii a in
      if (n <? 128)%nat then String a (decode_replace r)
      else if byte_in 194 223 a then
        match r with
        | String b r1 =>
            if byte_in 128 191 b then String a (String b (decode_replace r1))
            else replacement (decode_replace r)
        | EmptyString => replacement EmptyString
        end
      else if byte_in 224 239 a then
        match r with
        | String b r1 =>
            if byte_in (if (n =? 224)%nat then 160 else 128)
                 (if (n =? 237)%nat then 159 else 191) b
            then
              match r1 with
              | String c r2 =>
                  if byte_in 128 191 c
                  then String a (String b (String c (decode_replace r2)))
                  else replacement (decode_replace r1)
              | EmptyString => replacement EmptyString
              end
            else replacement (decode_replace r)
        | EmptyString => replacement EmptyString
        end
      else if byte_in 240 244 a then
        match r with
        | String b r1 =>
            if byte_in (if (n =? 240)%nat then 144 else 128)
                 (if (n =? 244)%nat then 143 else 191) b
            then
              match r1 with
              | String c r2 =>
                  if byte_in 128 191 c then
                    match r2 with
                    | String d r3 =>
                        if byte_in 128 191 d
                        then String a (String b (String c (String d
                               (decode_replace r3))))
                        else replacement (decode_replace r2)
                    | EmptyString => replacement EmptyString
                    end
                  else replacement (decode_replace r1)
              | EmptyString => replacement EmptyString
              end
            else replacement (decode_replace r)
        | EmptyString => replacement EmptyString
        end
      else replacement (decode_replace r)
  end.

(** [unquote(s)]: the escapes of [s] are turned into bytes, and the bytes
    are decoded as UTF-8 with replacement.  (Python decodes each run of
    ASCII characters by itself; the characters between the runs start with
    a byte that continues nothing, so decoding the whole text gives the
    same.) *)
Definition unquote (s : string) : string :=
  decode_replace (unquote_to_bytes s).

Definition unquote_plus (s : string) : string :=
  unquote (str_replace "+" " " s).

(** [parse_qsl(qs)] with its defaults ([keep_blank_values=False],
    [strict_parsing=False], separator ["&"]): a field without ["="] or
    with an empty value is dropped. *)
Definition parse_field (name_value : string) : list (string * string) :=
  if str_empty name_value then []
  else match str_partition "=" name_value with
       | (_, None) => []
       | (name, Some value) =>
           if str_empty value then []
           else [(unquote_plus name, unquote_plus value)]
       end.

Definition parse_qsl (qs : string) : list (string * string) :=
  flat_map parse_field (str_split "&" qs).

(** [parse_qs(qs)]: the values of each name, in order of appearance. *)
Definition parse_qs_add (d : dict (list string)) (p : string * string)
  : dict (list string) :=
  match dict_get (fst p) d with
  | Some values => dict_set (fst p) (values ++ [snd p]) d
  | None => dict_set (fst p) [snd p] d
  end.

Definition parse_qs (qs : string) : dict (list string) :=
  fold_left parse_qs_add (parse_qsl qs) [].

End UrlLib.

(** [extract_unique_part(url)]: the first value of the query parameter
    ["m"], the empty string when there is none.  ([[0]] never fails: a
    value list of [parse_qs] is not empty, see
    [extract_unique_part_first_value].)  This is what the function
    returns when [urlparse] returns; [urlparse_raises] says when it does
    not. *)
Definition extract_unique_part (url : string) : string :=
  let query_params := UrlLib.parse_qs (UrlLib.query url) in
  hd "" (dict_get_default "m" [""] query_params).

(** ** Libraries outside the repository

    What [scrape.py] calls in [markdownify], [datetime] and [time], and
    what [urlsplit] and [int] do beyond the plain cases modelled here, is
    taken as given: the crawl engine is modelled over any behaviour of
    these functions.  [None] stands for the [ValueError] the Python
    function raises. *)
Class Externals := {
  (** [markdownify.markdownify] *)
  md : string -> string;
  datetime : Type;
  (** [datetime.fromisoformat] *)
  fromisoformat : string -> option datetime;
  (** [date_time.strftime("%Y-%m-%d %H:%M")] *)
  strftime : datetime -> string;
  (** [time.mktime(time.strptime(s, "%a, %d %b %Y %H:%M:%S %Z")) - time.time()]
      as evaluated after the given attempt, in seconds; [None] when
      [time.strptime] raises [ValueError] *)
  http_date_delay : nat -> string -> option Z;
  (** [int(s)] for a text that is not ASCII or is longer than 4300
      characters: Unicode digits and spaces, the limit on the number of
      digits *)
  int_beyond : string -> option Z;
  (** the longest time, in seconds, that [time.sleep] takes on the
      platform; its clock refuses a longer one with [OSError] *)
  sleep_max : Z;
  (** whether the checks of [urlsplit] on a network location that has
      both brackets or is not ASCII ([_check_bracketed_netloc], which asks
      [ipaddress], and [_checknetloc], which normalizes with
      [unicodedata]) raise [ValueError] *)
  netloc_rejected : string -> bool
}.

(** [urlparse(url)] raises [ValueError]: the network location has one
    bracket without the other, or its further checks reject it.  Neither
    [extract_unique_part] nor [crawl_site] catches the exception. *)
Definition urlparse_raises {E : Externals} (url : string) : bool :=
  let netloc := UrlLib.netloc url in
  let opens := str_contains "[" netloc in
  let closes := str_contains "]" netloc in
  if xorb opens closes then true
  else if opens || negb (str_isascii netloc) then netloc_rejected netloc
  else false.

(** ** Data model *)

Module Post.
Record t := mk {
  id : string;
  title : string;
  content : string;
  entry_date : string;
  content_html : string;
  year : string
}.
End Post.

(** An element of [Stats.articles]: the dictionary
    [{"date": ..., "title": ...}]. *)
Record Article := mkArticle {
  date : string;
  title : string
}.

Record Stats := mkStats {
  articles_per_year : dict Z;
  total_articles : Z;
  articles : list Article
}.

Record CrawlState := mkCrawlState {
  urls_to_crawl : list string;
  crawled_urls : gset string;
  errors_404 : list string
}.

(** What the crawl reads of a parsed page ([BeautifulSoup]). *)
Record ArticleTag := mkArticleTag {
  (** [article["id"]] *)
  article_id : string;
  (** the stripped text of its [a rel="bookmark"], if any *)
  bookmark_text : option string;
  (** [str(body)] of its [div class="entry-content"], if any *)
  entry_content : option string;
  (** the [datetime] attribute (else the stripped text) of the
      [time class="entry-date"] in its [footer class="entry-meta"], if any *)
  entry_time : option string
}.

Record Soup := mkSoup {
  (** the [article] elements with an [id] under [div id="content"];
      empty when the page has no such [div] *)
  content_articles : list ArticleTag;
  (** the [href] of every link under [aside id="flexo-archives-3"];
      empty when the page has no such [aside] *)
  archive_hrefs : list string
}.

(** The files of the working directory.  A JSON file is represented by the
    value it encodes ([save_state] writes the set as a list and
    [load_state] reads it back as a set); a text file by its content.
    The directory is taken to be writable, with room for what is
    written. *)
Record Disk := mkDisk {
  state_file : option CrawlState;
  stats_file : option Stats;
  dates_titles_file : option string;
  errors_file : option string;
  blog_posts : dict string
}.

(** The outcome of a function that may raise: [Raised a] carries what the
    function had produced when the exception escaped. *)
Inductive Res (A : Type) : Type :=
  | Returned (a : A)
  | Raised (a : A).
Arguments Returned {A} a.
Arguments Raised {A} a.

Definition res_value {A} (r : Res A) : A :=
  match r with Returned a | Raised a => a end.

Definition nl : string := String (ascii_of_nat 10) EmptyString.

Definition str_of_Z (z : Z) : string := NilZero.string_of_int (Z.to_int z).

(** ** Extraction *)

Section Extraction.
Context {E : Externals}.

Definition post_of_article (article : ArticleTag) : Post.t :=
  let post_id := article_id article in
  let title := default "No Title" (bookmark_text article) in
  let content_html := default "" (entry_content article) in
  let content_md := md content_html in
  let date := default "" (entry_time article) in
  let year := if str_empty date then "unknown" else str_take 4 date in
  Post.mk post_id title content_md date content_html year.

Definition extract_posts (soup : Soup) : list Post.t :=
  map post_of_article (content_articles soup).

End Extraction.

Definition extract_archive_links (soup : Soup) : list string :=
  archive_hrefs soup.

(** ** Statistics *)

(** [{"date": post.entry_date, "title": post.title}] *)
Definition article_of (post : Post.t) : Article :=
  mkArticle (Post.entry_date post) (Post.title post).

(** One turn of the loop of [update_stats]. *)
Definition count_post (stats : Stats) (post : Post.t) : Stats :=
  let year := Post.year post in
  let per_year := articles_per_year stats in
  let per_year :=
    if dict_mem year per_year then per_year else dict_set year 0 per_year in
  let per_year :=
    dict_set year (dict_get_default year 0 per_year + 1) per_year in
  mkStats per_year (total_articles stats) (articles stats ++ [article_of post]).

Definition update_stats (stats : Stats) (posts : list Post.t) : Stats :=
  let stats := fold_left count_post posts stats in
  mkStats (articles_per_year stats)
    (total_articles stats + Z.of_nat (length posts))
    (articles stats).

(** [sum(stats.articles_per_year.values())] *)
Definition sum_values (d : dict Z) : Z :=
  fold_right (fun p acc => snd p + acc) 0 d.

(** ** Persistence *)

Definition save_state (state : CrawlState) (d : Disk) : Disk :=
  mkDisk (Some state) (stats_file d) (dates_titles_file d) (errors_file d)
    (blog_posts d).

Definition load_state (d : Disk) : CrawlState :=
  match state_file d with
  | Some state => state
  | None => mkCrawlState [] ∅ []
  end.

Definition save_stats (stats : Stats) (d : Disk) : Disk :=
  mkDisk (state_file d) (Some stats) (dates_titles_file d) (errors_file d)
    (blog_posts d).

Definition load_stats (d : Disk) : Stats :=
  match stats_file d with
  | Some stats => stats
  | None => mkStats [] 0 []
  end.

(** What [save_errors_404] writes: one line for each entry. *)
Definition errors_text (state : CrawlState) : string :=
  String.concat "" (map (fun error_url => error_url +:+ nl) (errors_404 state)).

Definition save_errors_404 (state : CrawlState) (d : Disk) : Disk :=
  mkDisk (state_file d) (stats_file d) (dates_titles_file d)
    (Some (errors_text state)) (blog_posts d).

(** [save_to_files]: the Markdown and the HTML file of a post, written
    when [open] takes their names, see [can_save]. *)
Definition post_basename (post : Post.t) : string :=
  let date_str := str_take 10 (Post.entry_date post) in
  date_str +:+ "-" +:+ Post.id post +:+ "-"
    +:+ str_replace "/" "-" (str_replace " " "_" (Post.title post)).

Definition save_to_files (post : Post.t) (d : Disk) : Disk :=
  let filepath_md := "blog_posts/" +:+ post_basename post +:+ ".md" in
  let filepath_html := "blog_posts/" +:+ post_basename post +:+ ".html" in
  let files :=
    dict_set filepath_md
      ("# " +:+ Post.title post +:+ nl +:+ nl +:+ Post.content post)
      (blog_posts d) in
  let files :=
    dict_set filepath_html
      ("<h1>" +:+ Post.title post +:+ "</h1>" +:+ nl +:+ nl
         +:+ Post.content_html post)
      files in
  mkDisk (state_file d) (stats_file d) (dates_titles_file d) (errors_file d)
    files.

(** A name that [open] takes for a file of [blog_posts] on a POSIX file
    system: at most 255 bytes, none of them ["/"] or zero. *)
Definition file_name_ok (name : string) : bool :=
  negb (str_contains "/" name)
  && negb (str_contains (ascii_of_nat 0) name)
  && (String.length name <=? 255)%nat.

(** [save_to_files(post)] can write its files.  Otherwise [open] raises
    (a ["/"] in [post.id] or in the date leads into a directory that is
    not there), and [crawl_site] does not catch the exception: the
    iteration ends at line 325, before [update_stats] and every saving. *)
Definition can_save (post : Post.t) : bool :=
  file_name_ok (post_basename post +:+ ".html").

Section Report.
Context {E : Externals}.

Definition summary_lines (per_year : dict Z) : string :=
  String.concat ""
    (map (fun p => fst p +:+ ", " +:+ str_of_Z (snd p) +:+ " posts" +:+ nl)
       per_year).

(** The second loop of [save_dates_titles]: [text] is what the file holds
    so far; the first date that [fromisoformat] rejects ends the writing. *)
Fixpoint write_articles (arts : list Article) (text : string) : Res string :=
  match arts with
  | [] => Returned text
  | article :: rest =>
      match fromisoformat (date article) with
      | None => Raised text
      | Some date_time =>
          let formatted_date := strftime date_time in
          write_articles rest
            (text +:+ formatted_date +:+ " " +:+ title article +:+ nl)
      end
  end.

Definition set_dates_titles (text : string) (d : Disk) : Disk :=
  mkDisk (state_file d) (stats_file d) (Some text) (errors_file d)
    (blog_posts d).

Definition save_dates_titles (stats : Stats) (d : Disk) : Res Disk :=
  let head := summary_lines (articles_per_year stats) +:+ nl in
  match write_articles (articles stats) head with
  | Returned text => Returned (set_dates_titles text d)
  | Raised text => Raised (set_dates_titles text d)
  end.

End Report.

(** ** The fetcher *)

Record Response := mkResponse {
  status_code : Z;
  (** [response.headers.get("Retry-After")] *)
  retry_after : option string;
  (** [BeautifulSoup(response.text, "html.parser")] *)
  parsed_text : Soup
}.

(** What [requests.get(url, timeout=60)] does on one call. *)
Inductive Reply : Type :=
  | Responds (response : Response)
  (** raises a [RequestException] that is not an [HTTPError]
      ([ConnectionError], [Timeout], [TooManyRedirects], ...), with the
      response it carries, if any *)
  | Fails (response : option Response)
  (** raises [urllib3]'s [MaxRetryError] *)
  | FailsMaxRetry.

Inductive Exn : Type :=
  | HTTPError (response : Response)
  | RequestException (response : option Response)
  | MaxRetryError
  | RetryError (last : Exn)
  | ValueError
  | OverflowError
  | OSError.

Inductive Outcome : Type :=
  | Result (soup : option Soup)
  | Exception (e : Exn).

(** [response.raise_for_status()] raises for a status from 400 to 599. *)
Definition raise_for_status (response : Response) : bool :=
  (400 <=? status_code response) && (status_code response <? 600).

(** The body of [fetch_page]: one attempt. *)
Definition fetch_page_body (reply : Reply) : Outcome :=
  match reply with
  | Responds response =>
      if raise_for_status response then
        if status_code response =? 404 then Result None
        else Exception (HTTPError response)
      else Result (Some (parsed_text response))
  | Fails response => Exception (RequestException response)
  | FailsMaxRetry => Exception MaxRetryError
  end.

(** [int(s)] on ASCII text of at most 640 characters (no limit on the
    number of digits can be set below that): surrounding white space (tab
    to carriage return, space), a sign, and decimal digits that single
    underscores may separate. *)
Module PyInt.

Definition is_space (a : ascii) : bool :=
  let n := nat_of_ascii a in
  (((9 <=? n) && (n <=? 13)) || (n =? 32))%nat.

Definition digit (a : ascii) : option Z :=
  let n := nat_of_ascii a in
  if ((48 <=? n) && (n <=? 57))%nat then Some (Z.of_nat n - 48) else None.

Fixpoint lstrip (s : string) : string :=
  match s with
  | String a r => if is_space a then lstrip r else s
  | EmptyString => EmptyString
  end.

Fixpoint rstrip (s : string) : string :=
  match s with
  | EmptyString => EmptyString
  | String a r =>
      let r' := rstrip r in
      if str_empty r' && is_space a then EmptyString else String a r'
  end.

Fixpoint digits (s : string) (acc : Z) (after_digit : bool) : option Z :=
  match s with
  | EmptyString => if after_digit then Some acc else None
  | String a r =>
      match digit a with
      | Some d => digits r (10 * acc + d) true
      | None =>
          if Ascii.eqb a "_" && after_digit then digits r acc false
          else None
      end
  end.

Definition int (s : string) : option Z :=
  match rstrip (lstrip s) with
  | String a r =>
      if Ascii.eqb a "-" then Z.opp <$> digits r 0 false
      else if Ascii.eqb a "+" then digits r 0 false
      else digits (String a r) 0 false
  | EmptyString => None
  end.

(** The texts on which [int] above is [int(s)]. *)
Definition plain (s : string) : bool :=
  str_isascii s && (String.length s <=? 640)%nat.

End PyInt.

(** *** The retry policy of [tenacity]

    As in tenacity 8 and 9 ([retry_if_not_exception_type] needs 8.0): an
    exception that the condition rejects is raised again as it is; after
    the last attempt [RetryError] is raised; otherwise the wait is
    computed, the [before_sleep] hook is called, and the wait is slept. *)

Definition isinstance_RequestException (e : Exn) : bool :=
  match e with
  | HTTPError _ | RequestException _ => true
  | _ => false
  end.

Definition isinstance_HTTPError (e : Exn) : bool :=
  match e with
  | HTTPError _ => true
  | _ => false
  end.

(** [retry_if_exception_type(RequestException)
     & retry_if_not_exception_type(HTTPError)] *)
Definition retry_condition (e : Exn) : bool :=
  isinstance_RequestException e && negb (isinstance_HTTPError e).

(** [stop_after_attempt(max_attempt_number)] *)
Definition stop_after_attempt (max_attempt_number attempt_number : nat) : bool :=
  (max_attempt_number <=? attempt_number)%nat.

(** [wait_exponential(multiplier, min, max)] with [exp_base = 2] *)
Definition wait_exponential (multiplier min max : Z) (attempt_number : nat) : Z :=
  let exp := 2 ^ (Z.of_nat attempt_number - 1) in
  let result := multiplier * exp in
  Z.max (Z.max 0 min) (Z.min result max).

Definition exception_response (e : Exn) : option Response :=
  match e with
  | HTTPError response => Some response
  | RequestException response => response
  | _ => None
  end.

(** What a call of the [before_sleep] hook does. *)
Inductive Hook : Type :=
  | NoWait
  | Waited (seconds : Z)
  | HookRaised (e : Exn).

(** What the calls of [requests.get] and [time.sleep] look like from
    outside. *)
Inductive Event : Type :=
  | Get (attempt_number : nat)
  | Sleep (seconds : Z).

Section Fetcher.
Context {E : Externals}.

(** [int(s)] *)
Definition py_int (s : string) : option Z :=
  if PyInt.plain s then PyInt.int s else int_beyond s.

(** The [try] of [wait_if_retry_after]: [int(retry_after)], else the
    distance to the HTTP date. *)
Definition header_seconds (attempt_number : nat) (header : string) : option Z :=
  match py_int header with
  | Some n => Some n
  | None => http_date_delay attempt_number header
  end.

(** [time.sleep(seconds)]: the exception it raises, if any.  The length
    is converted to nanoseconds in 64 bits ([OverflowError] beyond
    9223372036 seconds, either way), must not be negative ([ValueError]),
    and must be one that the platform takes. *)
Definition sleep_exception (seconds : Z) : option Exn :=
  if (seconds <? -9223372036) || (9223372036 <? seconds) then Some OverflowError
  else if seconds <? 0 then Some ValueError
  else if seconds <=? sleep_max then None
  else Some OSError.

(** [wait_if_retry_after(retry_state)], where [retry_state.outcome] is
    the failed attempt.  [time.strptime] raises [ValueError] on a text
    that is not a date. *)
Definition wait_if_retry_after (attempt_number : nat) (outcome : Outcome) : Hook :=
  match outcome with
  | Result _ => NoWait
  | Exception exception =>
      if isinstance_RequestException exception then
        match exception_response exception with
        | None => NoWait
        | Some response =>
            match retry_after response with
            | None => NoWait
            | Some header =>
                if str_empty header then NoWait
                else
                  match header_seconds attempt_number header with
                  | None => HookRaised ValueError
                  | Some wait_time =>
                      match sleep_exception wait_time with
                      | Some e => HookRaised e
                      | None => Waited wait_time
                      end
                  end
            end
        end
      else NoWait
  end.

(** The loop that [@retry] wraps around the body: attempt
    [attempt_number] and what follows it.  [net n] is what the [n]-th
    call of [requests.get] does.  [fuel] bounds the further attempts;
    [None] says it ran out (it never does, see [retrying_returns]). *)
Fixpoint retrying (fuel : nat) (attempt_number : nat) (net : nat -> Reply)
  : option Outcome * list Event :=
  let outcome := fetch_page_body (net attempt_number) in
  match outcome with
  | Result _ => (Some outcome, [Get attempt_number])
  | Exception e =>
      if negb (retry_condition e) then (Some outcome, [Get attempt_number])
      else if stop_after_attempt 5 attempt_number then
        (Some (Exception (RetryError e)), [Get attempt_number])
      else
        let sleep := wait_exponential 5 30 300 attempt_number in
        match wait_if_retry_after attempt_number outcome with
        | HookRaised e => (Some (Exception e), [Get attempt_number])
        | hook =>
            let waits :=
              match hook with
              | Waited seconds => [Sleep seconds; Sleep sleep]
              | _ => [Sleep sleep]
              end in
            match fuel with
            | O => (None, Get attempt_number :: waits)
            | S fuel' =>
                let (r, events) := retrying fuel' (S attempt_number) net in
                (r, Get attempt_number :: waits ++ events)
            end
        end
  end.

(** [fetch_page(url)] on a network that answers the successive requests
    by [net 1], [net 2], ... *)
Definition fetch_page (net : nat -> Reply) : option Outcome * list Event :=
  retrying 4 1 net.

End Fetcher.

Definition gets (events : list Event) : list nat :=
  flat_map (fun ev => match ev with Get n => [n] | Sleep _ => [] end) events.

Definition sleeps (events : list Event) : list Z :=
  flat_map (fun ev => match ev with Sleep s => [s] | Get _ => [] end) events.

(** ** The crawl loop *)

(** What [crawl_site] holds in memory and on disk. *)
Record World := mkWorld {
  state : CrawlState;
  stats : Stats;
  disk : Disk
}.

Definition set_urls_to_crawl (urls : list string) (st : CrawlState) : CrawlState :=
  mkCrawlState urls (crawled_urls st) (errors_404 st).

(** One turn of the loop over [new_links]. *)
Definition enqueue_link (st : CrawlState) (link : string) : CrawlState :=
  let unique_link_part := extract_unique_part link in
  if bool_decide (unique_link_part ∉ crawled_urls st)
     && bool_decide (unique_link_part ∉ urls_to_crawl st)
  then set_urls_to_crawl (urls_to_crawl st ++ [link]) st
  else st.

Definition enqueue_links (st : CrawlState) (new_links : list string) : CrawlState :=
  fold_left enqueue_link new_links st.

Section Crawl.
Context {E : Externals}.

(** [save_state; save_stats; save_dates_titles; save_errors_404], as at
    the end of the [except] branch and of the loop body. *)
Definition persist (st : CrawlState) (sts : Stats) (d : Disk) : Res Disk :=
  let d := save_state st d in
  let d := save_stats sts d in
  match save_dates_titles sts d with
  | Raised d => Raised d
  | Returned d => Returned (save_errors_404 st d)
  end.

Definition with_disk (st : CrawlState) (sts : Stats) (r : Res Disk) : Res World :=
  match r with
  | Returned d => Returned (mkWorld st sts d)
  | Raised d => Raised (mkWorld st sts d)
  end.

(** The body of the [while] loop once [current_url] has been popped;
    [w] is the world after the pop.  [fetch] is what [fetch_page] does
    for a URL: [Result None] on a 404, any [Exception] is caught by
    [except Exception].  (The later test [if not soup] never holds: a
    [BeautifulSoup] object is true.) *)
Definition loop_body (fetch : string -> Outcome) (current_url : string)
    (w : World) : Res World :=
  let st := state w in
  let unique_part := extract_unique_part current_url in
  if bool_decide (unique_part ∈ crawled_urls st) then Returned w
  else
    match fetch current_url with
    | Result None =>
        let st :=
          mkCrawlState (urls_to_crawl st) (crawled_urls st)
            (errors_404 st ++ [current_url]) in
        Returned (mkWorld st (stats w) (save_errors_404 st (disk w)))
    | Exception _ =>
        let st := set_urls_to_crawl (urls_to_crawl st ++ [current_url]) st in
        with_disk st (stats w) (persist st (stats w) (disk w))
    | Result (Some soup) =>
        let posts := extract_posts soup in
        let d := fold_left (fun d post => save_to_files post d) posts (disk w) in
        let sts := update_stats (stats w) posts in
        let new_links := extract_archive_links soup in
        let st := enqueue_links st new_links in
        let st :=
          mkCrawlState (urls_to_crawl st) (crawled_urls st ∪ {[unique_part]})
            (errors_404 st) in
        with_disk st sts (persist st sts d)
    end.

(** One iteration of [while state.urls_to_crawl]: [None] when the list
    is empty and the loop ends. *)
Definition crawl_iteration (fetch : string -> Outcome) (w : World)
  : option (Res World) :=
  match urls_to_crawl (state w) with
  | [] => None
  | current_url :: rest =>
      Some (loop_body fetch current_url
              (mkWorld (set_urls_to_crawl rest (state w)) (stats w) (disk w)))
  end.

(** The loop, for at most [fuel] iterations: [None] when they do not
    suffice (the loop need not end), [Some (Raised w)] when an exception
    leaves [crawl_site]. *)
Fixpoint crawl_loop (fuel : nat) (fetch : string -> Outcome) (w : World)
  : option (Res World) :=
  match crawl_iteration fetch w with
  | None => Some (Returned w)
  | Some r =>
      match fuel with
      | O => None
      | S fuel' =>
          match r with
          | Raised w' => Some (Raised w')
          | Returned w' => crawl_loop fuel' fetch w'
          end
      end
  end.

Definition crawl_site (fuel : nat) (fetch : string -> Outcome)
    (start_url : string) (d : Disk) : option (Res World) :=
  let st := load_state d in
  let sts := load_stats d in
  let st :=
    match urls_to_crawl st with
    | [] => set_urls_to_crawl [start_url] st
    | _ => st
    end in
  crawl_loop fuel fetch (mkWorld st sts d).

(** The world after [n] iterations of the loop that all returned; [None]
    when the loop ended or an exception escaped before that. *)
Fixpoint crawl_iterations (n : nat) (fetch : string -> Outcome) (w : World)
  : option World :=
  match n with
  | O => Some w
  | S n' =>
      match crawl_iteration fetch w with
      | Some (Returned w') => crawl_iterations n' fetch w'
      | _ => None
      end
  end.

End Crawl.

(** ** Stand-ins for closed examples

    The examples below run the model on concrete inputs, which needs some
    instance of [Externals].  This one converts nothing.  Of dates it
    takes the texts [YYYY-MM-DD] and [YYYY-MM-DD*HH:MM] from the year 1000
    on ([*] being any ASCII character), which [datetime.fromisoformat]
    takes as well, and no other; a date is kept as the text that
    [strftime] gives.  It knows no HTTP date, no number beyond those of
    [PyInt], takes no network location with brackets or beyond ASCII, and
    sleeps for 49 days at most. *)
Module Sample.

(** [k] decimal digits at the start of [s]: their value and the rest. *)
Fixpoint number (k : nat) (s : string) (acc : nat) : option (nat * string) :=
  match k with
  | O => Some (acc, s)
  | S k' =>
      match s with
      | String a r =>
          let n := nat_of_ascii a in
          if ((48 <=? n) && (n <=? 57))%nat
          then number k' r (10 * acc + (n - 48))%nat
          else None
      | EmptyString => None
      end
  end.

Definition leap_year (year : nat) : bool :=
  (((year mod 4 =? 0) && negb (year mod 100 =? 0)) || (year mod 400 =? 0))%nat.

Definition days_in_month (year month : nat) : nat :=
  match month with
  | 2%nat => if leap_year year then 29%nat else 28%nat
  | 4%nat | 6%nat | 9%nat | 11%nat => 30%nat
  | _ => 31%nat
  end.

(** [HH:MM] *)
Definition parse_time (s : string) : option string :=
  match number 2 s 0 with
  | Some (hour, String c r) =>
      match number 2 r 0 with
      | Some (minute, EmptyString) =>
          if (Ascii.eqb c ":" && (hour <? 24) && (minute <? 60))%nat
          then Some s else None
      | _ => None
      end
  | _ => None
  end.

Definition parse_date (s : string) : option string :=
  match number 4 s 0 with
  | Some (year, String c1 r1) =>
      match number 2 r1 0 with
      | Some (month, String c2 r2) =>
          match number 2 r2 0 with
          | Some (day, rest) =>
              if (Ascii.eqb c1 "-" && Ascii.eqb c2 "-" && (1000 <=? year)
                  && (1 <=? month) && (month <=? 12)
                  && (1 <=? day) && (day <=? days_in_month year month))%nat
              then
                match rest with
                | EmptyString => Some (s +:+ " 00:00")
                | String separator time =>
                    if (nat_of_ascii separator <? 128)%nat
                    then (fun t => str_take 10 s +:+ " " +:+ t) <$> parse_time time
                    else None
                end
              else None
          | None => None
          end
      | _ => None
      end
  | _ => None
  end.

#[export] Instance externals : Externals := {|
  md := fun html => html;
  datetime := string;
  fromisoformat := parse_date;
  strftime := fun date_time => date_time;
  http_date_delay := fun _ _ => None;
  int_beyond := fun _ => None;
  sleep_max := 4233600;
  netloc_rejected := fun _ => true
|}.

Definition empty_disk : Disk := mkDisk None None None None [].

Definition no_stats : Stats := mkStats [] 0 [].

(** A page without posts that links to these archive pages. *)
Definition page (links : list string) : Outcome :=
  Result (Some (mkSoup [] links)).

Definition seed : string := "http://a/".
Definition jan : string := "http://a/?m=201901".
Definition feb : string := "http://a/?m=201902".

(** A site whose pages list the archives of February and January, and
    whose February archive does not exist. *)
Definition archive (url : string) : Outcome :=
  if String.eqb url feb then Result None else page [feb; jan].

(** The world [crawl_site] starts from on an empty disk. *)
Definition start (url : string) : World :=
  mkWorld (mkCrawlState [url] ∅ []) no_stats empty_disk.

(** Responses: a page, a server error, and two that ask to wait 120
    seconds, a redirection and an overloaded server. *)
Definition ok : Response := mkResponse 200 None (mkSoup [] []).
Definition server_error : Response := mkResponse 500 None (mkSoup [] []).
Definition redirect : Response := mkResponse 302 (Some "120") (mkSoup [] []).
Definition busy : Response := mkResponse 503 (Some "120") (mkSoup [] []).

(** Networks: never reachable; a server error, then fine; too many
    redirections ([TooManyRedirects] carries the last response), then
    fine; an overloaded server, then fine. *)
Definition down (n : nat) : Reply := Fails None.
Definition error_then_ok (n : nat) : Reply :=
  if (n =? 1)%nat then Responds server_error else Responds ok.
Definition redirects_then_ok (n : nat) : Reply :=
  if (n =? 1)%nat then Fails (Some redirect) else Responds ok.
Definition busy_then_ok (n : nat) : Reply :=
  if (n =? 1)%nat then Responds busy else Responds ok.

(** A post without a [time] tag. *)
Definition undated : ArticleTag :=
  mkArticleTag "post-1" (Some "Hello") (Some "<p>Hello</p>") None.

(** A post whose date is no text of ISO 8601: an ["X"] stands where the
    ["T"] belongs. *)
Definition misdated : ArticleTag :=
  mkArticleTag "post-2" (Some "Hello") (Some "<p>Hello</p>")
    (Some "2019-03-01X10:00").

(** A page with one post of March 2019 and no archive links; a network
    that delivers it at the fifth attempt; a site whose start page lists
    the archives of January, which is that page, and of February, which
    does not exist. *)
Definition march_page : Soup :=
  mkSoup [mkArticleTag "post-7" (Some "Spring") (Some "<p>Spring</p>")
            (Some "2019-03-01")] [].
Definition flaky (n : nat) : Reply :=
  if (n <? 5)%nat then Fails None else Responds (mkResponse 200 None march_page).
Definition scenario (url : string) : Outcome :=
  if String.eqb url seed then page [jan; feb]
  else if String.eqb url jan then Result (Some march_page)
  else Result None.

End Sample.

(** The predicates of the specification. *)

(** The URL has a query parameter of this name (with a value). *)
Definition has_param (name : string) (url : string) : bool :=
  existsb (fun p => String.eqb (fst p) name) (UrlLib.parse_qsl (UrlLib.query url)).

(** The values of the parameter [k] among the pairs of [parse_qsl]. *)
Definition values_of (k : string) (pairs : list (string * string)) : list string :=
  map snd (filter (fun p => String.eqb (fst p) k = true) pairs).

(** No pending URL has a key that is already visited. *)
Definition pending_fresh (st : CrawlState) : Prop :=
  ∀ url, url ∈ urls_to_crawl st → extract_unique_part url ∉ crawled_urls st.

Definition pending_freshb (st : CrawlState) : bool :=
  forallb (fun url => bool_decide (extract_unique_part url ∉ crawled_urls st))
    (urls_to_crawl st).

(** [total_articles == sum(articles_per_year.values()) == len(articles)] *)
Definition conserved (s : Stats) : Prop :=
  total_articles s = sum_values (articles_per_year s)
  ∧ total_articles s = Z.of_nat (length (articles s)).

(** The shape of what [fetch_page] does: attempt [n], then for each
    further attempt the wait of the hook, if it waited, and the computed
    wait. *)
Fixpoint schedule (n : nat) (hooks : list (option Z)) : list Event :=
  match hooks with
  | [] => [Get n]
  | hook :: hooks' =>
      Get n
      :: match hook with Some seconds => [Sleep seconds] | None => [] end
      ++ Sleep (wait_exponential 5 30 300 n) :: schedule (S n) hooks'
  end.

(** The line of [save_dates_titles] for a record whose date parses. *)
Definition article_line {E : Externals} (article : Article) : string :=
  match fromisoformat (date article) with
  | Some date_time => strftime date_time +:+ " " +:+ title article +:+ nl
  | None => ""
  end.

(** What [k] failed attempts from attempt [n] on look like when none
    carries a response: each is followed by the computed wait. *)
Definition failed_attempts (n k : nat) : list Event :=
  flat_map (fun i => [Get i; Sleep (wait_exponential 5 30 300 i)]) (seq n k).

(** The pending list of an iteration that puts the popped URL back: the
    head goes to the end. *)
Definition head_to_end (urls : list string) : list string :=
  match urls with
  | [] => []
  | url :: rest => rest ++ [url]
  end.

(** [w'] still holds all that [w] had recorded. *)
Definition keeps_record (w w' : World) : Prop :=
  crawled_urls (state w) ⊆ crawled_urls (state w')
  ∧ errors_404 (state w) `prefix_of` errors_404 (state w')
  ∧ articles (stats w) `prefix_of` articles (stats w').

(** The statistics in memory and those of the statistics file, if there is
    one, are conserved. *)
Definition stats_conserved (w : World) : Prop :=
  conserved (stats w) ∧ ∀ s, stats_file (disk w) = Some s → conserved s.

(** * Properties *)

(** ** The model on concrete inputs *)

Example extract_unique_part_archive :
  extract_unique_part
    "https://web.archive.org/web/20240910152712/http://reinderbruinsma.com/?m=201901"
  = "201901".
Proof. reflexivity. Qed.

Example extract_unique_part_base_url :
  extract_unique_part
    "https://web.archive.org/web/20240910152712/http://reinderbruinsma.com/"
  = "".
Proof. reflexivity. Qed.

Example parse_qs_fields :
  UrlLib.parse_qs "x=1&m=%32+0&m=7&&y&z=&x=2#m=9"
  = [("x", ["1"; "2#m=9"]); ("m", ["2 0"; "7"])]
  ∧ extract_unique_part "http://a/?x=1&m=%32+0&m=7&&y&z=&x=2#m=9" = "2 0".
Proof. split; reflexivity. Qed.

Example int_texts :
  map PyInt.int ["120"; " +1_20 "; "-5"; "1__20"; "12a"; ""]
  = [Some 120; Some 120; Some (-5); None; None; None].
Proof. reflexivity. Qed.

Example wait_exponential_values :
  map (wait_exponential 5 30 300) [1; 2; 3; 4; 5; 6; 7; 8]%nat
  = [30; 30; 30; 40; 80; 160; 300; 300].
Proof. reflexivity. Qed.

(** A page that arrives at the fifth attempt. *)
Example fetch_page_fifth_attempt :
  fetch_page (E := Sample.externals) Sample.flaky
  = (Some (Result (Some Sample.march_page)),
     [Get 1; Sleep 30; Get 2; Sleep 30; Get 3; Sleep 30; Get 4; Sleep 40; Get 5]).
Proof. reflexivity. Qed.

(** The scenario of the specification: the start page lists two archive
    pages; the first holds one post of 2019, the second is not found. *)
Example crawl_site_scenario :
  ∃ w,
    crawl_site (E := Sample.externals) 3 Sample.scenario Sample.seed
      Sample.empty_disk = Some (Returned w)
    ∧ urls_to_crawl (state w) = []
    ∧ errors_404 (state w) = [Sample.feb]
    ∧ stats w = mkStats [("2019", 1)] 1 [mkArticle "2019-03-01" "Spring"]
    ∧ stats_file (disk w) = Some (stats w)
    ∧ map fst (blog_posts (disk w))
      = ["blog_posts/2019-03-01-post-7-Spring.md";
         "blog_posts/2019-03-01-post-7-Spring.html"].
Proof.
  eexists. split; [vm_compute; reflexivity|]. repeat split; reflexivity.
Qed.

(** ** Dictionaries *)

Lemma dict_get_set_eq {V} (k : string) (v : V) (d : dict V) :
  dict_get k (dict_set k v d) = Some v.
Proof.
  induction d as [|[k' v'] d IH]; simpl.
  - by rewrite String.eqb_refl.
  - destruct (String.eqb k k') eqn:Hk; simpl.
    + by rewrite String.eqb_refl.
    + by rewrite Hk.
Qed.

Lemma dict_get_set_ne {V} (k k' : string) (v : V) (d : dict V) :
  k ≠ k' → dict_get k (dict_set k' v d) = dict_get k d.
Proof.
  intros Hne. induction d as [|[k'' v''] d IH]; simpl.
  - apply String.eqb_neq in Hne. by rewrite Hne.
  - destruct (String.eqb k' k'') eqn:Hk; simpl.
    + apply String.eqb_eq in Hk. subst k''.
      apply String.eqb_neq in Hne. by rewrite Hne.
    + by rewrite IH.
Qed.

Lemma sum_values_set (k : string) (v : Z) (d : dict Z) :
  sum_values (dict_set k v d) = sum_values d - dict_get_default k 0 d + v.
Proof.
  unfold dict_get_default.
  induction d as [|[k' v'] d IH]; simpl.
  - lia.
  - destruct (String.eqb k k') eqn:Hk; simpl; lia.
Qed.

(** ** The key of a URL *)

Lemma values_of_cons k p pairs :
  values_of k (p :: pairs)
  = if String.eqb (fst p) k then snd p :: values_of k pairs else values_of k pairs.
Proof.
  unfold values_of. rewrite filter_cons.
  destruct (String.eqb (fst p) k) eqn:Hk; case_decide; done.
Qed.

Lemma parse_qs_fold_get (k : string) pairs (acc : dict (list string)) :
  dict_get k (fold_left UrlLib.parse_qs_add pairs acc)
  = match dict_get k acc, values_of k pairs with
    | None, [] => None
    | o, vs => Some (default [] o ++ vs)
    end.
Proof.
  revert acc. induction pairs as [|p pairs IH]; intros acc.
  - simpl. destruct (dict_get k acc); simpl; by rewrite ?app_nil_r.
  - simpl. rewrite IH, values_of_cons. unfold UrlLib.parse_qs_add.
    destruct (String.eqb (fst p) k) eqn:Hk.
    + apply String.eqb_eq in Hk. subst k.
      destruct (dict_get (fst p) acc) as [vs|]; rewrite dict_get_set_eq; simpl;
        by rewrite <- ?app_assoc.
    + apply String.eqb_neq in Hk.
      assert (Hget : ∀ vs, dict_get k (dict_set (fst p) vs acc) = dict_get k acc)
        by (intros vs; apply dict_get_set_ne; congruence).
      destruct (dict_get (fst p) acc); by rewrite Hget.
Qed.

(** [extract_unique_part] is the first value of ["m"] that [parse_qsl]
    yields, the empty string when it yields none. *)
Lemma extract_unique_part_first_value (url : string) :
  extract_unique_part url
  = hd "" (values_of "m" (UrlLib.parse_qsl (UrlLib.query url))).
Proof.
  unfold extract_unique_part, UrlLib.parse_qs, dict_get_default.
  rewrite parse_qs_fold_get. simpl.
  by destruct (values_of "m" (UrlLib.parse_qsl (UrlLib.query url))).
Qed.

Lemma values_of_absent k pairs :
  existsb (fun p => String.eqb (fst p) k) pairs = false → values_of k pairs = [].
Proof.
  induction pairs as [|p pairs IH]; [done|].
  simpl. rewrite values_of_cons. intros [Hp Hr]%orb_false_iff.
  rewrite Hp. auto.
Qed.

Lemma no_param_key_empty (url : string) :
  has_param "m" url = false → extract_unique_part url = "".
Proof.
  intros H. rewrite extract_unique_part_first_value.
  unfold has_param in H. by rewrite (values_of_absent _ _ H).
Qed.

Lemma str_partition_absent c s :
  str_contains c s = false → str_partition c s = (s, None).
Proof.
  induction s as [|a s IH]; simpl; [done|].
  intros [Ha Hs]%orb_false_iff. rewrite Ha, (IH Hs). done.
Qed.

Lemma str_partition_prefix_lacks c c' s :
  str_contains c' s = false → str_contains c' (fst (str_partition c s)) = false.
Proof.
  induction s as [|a s IH]; simpl; [done|].
  intros [Ha Hs]%orb_false_iff.
  destruct (Ascii.eqb a c); [done|].
  specialize (IH Hs). destruct (str_partition c s); simpl in *.
  by rewrite Ha, IH.
Qed.

Lemma lstrip_c0_lacks c s :
  str_contains c s = false → str_contains c (UrlLib.lstrip_c0 s) = false.
Proof.
  induction s as [|a s IH]; simpl; [done|].
  intros [Ha Hs]%orb_false_iff.
  destruct (UrlLib.c0_control_or_space a); [auto|].
  simpl. by rewrite Ha, Hs.
Qed.

Lemma remove_unsafe_lacks c s :
  str_contains c s = false → str_contains c (UrlLib.remove_unsafe s) = false.
Proof.
  induction s as [|a s IH]; simpl; [done|].
  intros [Ha Hs]%orb_false_iff.
  destruct (UrlLib.unsafe_url_byte a); [auto|].
  simpl. by rewrite Ha, IH.
Qed.

(** A URL without ["?"] has no query, hence no parameter. *)
Lemma no_question_mark_no_param (name url : string) :
  str_contains "?" url = false → has_param name url = false.
Proof.
  intros H. unfold has_param, UrlLib.query.
  pose proof (remove_unsafe_lacks _ _ (lstrip_c0_lacks _ _ H)) as H1.
  pose proof (str_partition_prefix_lacks "#" _ _ H1) as H2.
  destruct (str_partition "#" _) as [u frag]; simpl in H2.
  by rewrite (str_partition_absent _ _ H2).
Qed.

(** ** The frontier *)

Lemma pending_freshb_spec (st : CrawlState) :
  pending_freshb st = true ↔ pending_fresh st.
Proof.
  unfold pending_freshb, pending_fresh. rewrite forallb_forall. split.
  - intros H url Hin. apply list_elem_of_In, H in Hin.
    by apply bool_decide_eq_true in Hin.
  - intros H url Hin. apply bool_decide_eq_true, H. by apply list_elem_of_In.
Qed.

Lemma enqueue_link_visited (st : CrawlState) (link : string) :
  extract_unique_part link ∈ crawled_urls st → enqueue_link st link = st.
Proof.
  intros H. unfold enqueue_link.
  rewrite (bool_decide_eq_false_2 (extract_unique_part link ∉ crawled_urls st)); [done|].
  by intros Hn.
Qed.

(** Idempotent dedup (the half of C1 that holds).  However often it is
    repeated, enqueueing a link whose key is visited changes nothing. *)
Lemma enqueue_link_visited_repeat (n : nat) (st : CrawlState) (link : string) :
  extract_unique_part link ∈ crawled_urls st →
  Nat.iter n (fun s => enqueue_link s link) st = st.
Proof.
  intros H. induction n as [|n IH]; simpl; [done|].
  rewrite IH. by apply enqueue_link_visited.
Qed.

Lemma enqueue_link_cases (st : CrawlState) (link : string) :
  enqueue_link st link = st
  ∨ (enqueue_link st link = set_urls_to_crawl (urls_to_crawl st ++ [link]) st
     ∧ (extract_unique_part link ∉ crawled_urls st)
     ∧ (extract_unique_part link ∉ urls_to_crawl st)).
Proof.
  unfold enqueue_link.
  destruct (bool_decide (extract_unique_part link ∉ crawled_urls st)) eqn:H1;
    [|by left].
  destruct (bool_decide (extract_unique_part link ∉ urls_to_crawl st)) eqn:H2;
    [|by left].
  right. apply bool_decide_eq_true in H1, H2. done.
Qed.

(** The loop over [new_links] only appends: links of the page whose key is
    not visited; the visited set and the 404 list stay. *)
Lemma enqueue_links_spec (links : list string) (st : CrawlState) :
  ∃ new,
    enqueue_links st links
    = mkCrawlState (urls_to_crawl st ++ new) (crawled_urls st) (errors_404 st)
    ∧ ∀ url, url ∈ new →
        url ∈ links ∧ extract_unique_part url ∉ crawled_urls st.
Proof.
  revert st. induction links as [|link links IH]; intros st.
  - exists []. split; [|by intros ? ?%elem_of_nil].
    simpl. rewrite app_nil_r. by destruct st.
  - simpl. change (fold_left enqueue_link links ?s) with (enqueue_links s links).
    destruct (enqueue_link_cases st link) as [->|(-> & Hc & _)].
    + destruct (IH st) as (new & -> & Hnew). exists new. split; [done|].
      intros url Hin. destruct (Hnew url Hin). split; [by right|done].
    + destruct (IH (set_urls_to_crawl (urls_to_crawl st ++ [link]) st))
        as (new & -> & Hnew).
      exists (link :: new). simpl. split; [by rewrite <- app_assoc|].
      intros url [->|Hin]%elem_of_cons; [by split; [left|]|].
      destruct (Hnew url Hin). split; [by right|done].
Qed.

Section CrawlFacts.
Context {E : Externals}.

Lemma with_disk_value st sts r :
  state (res_value (with_disk st sts r)) = st
  ∧ stats (res_value (with_disk st sts r)) = sts
  ∧ disk (res_value (with_disk st sts r)) = res_value r.
Proof. by destruct r. Qed.

Lemma with_disk_returned st sts r w' :
  with_disk st sts r = Returned w' →
  state w' = st ∧ stats w' = sts ∧ r = Returned (disk w').
Proof. destruct r; [|done]. by intros [= <-]. Qed.

(** Whenever [persist] returns or raises, the state file and the
    statistics file hold what it was given. *)
Lemma persist_files st sts d :
  state_file (res_value (persist st sts d)) = Some st
  ∧ stats_file (res_value (persist st sts d)) = Some sts.
Proof.
  unfold persist, save_dates_titles.
  by destruct (write_articles _ _).
Qed.

Lemma persist_errors_file st sts d d' :
  persist st sts d = Returned d' →
  errors_file d' = Some (errors_text st).
Proof.
  unfold persist, save_dates_titles.
  destruct (write_articles _ _); [|done]. by intros [= <-].
Qed.

(** [save_dates_titles] raises as soon as one record has a date that
    [fromisoformat] rejects. *)
Lemma write_articles_raises arts text a :
  a ∈ arts → fromisoformat (date a) = None →
  ∃ text', write_articles arts text = Raised text'.
Proof.
  intros Hin Hbad. revert text.
  induction arts as [|b arts IH]; intros text; [by apply elem_of_nil in Hin|].
  simpl. apply elem_of_cons in Hin as [<-|Hin].
  - rewrite Hbad. eauto.
  - destruct (fromisoformat (date b)); eauto.
Qed.

Lemma save_dates_titles_raises sts d a :
  a ∈ articles sts → fromisoformat (date a) = None →
  ∃ d', save_dates_titles sts d = Raised d'.
Proof.
  intros Hin Hbad. unfold save_dates_titles.
  destruct (write_articles_raises _ (summary_lines (articles_per_year sts) +:+ nl)
              _ Hin Hbad) as [text' ->].
  eauto.
Qed.

Lemma persist_raises st sts d a :
  a ∈ articles sts → fromisoformat (date a) = None →
  ∃ d', persist st sts d = Raised d'.
Proof.
  intros Hin Hbad. unfold persist.
  destruct (save_dates_titles_raises sts (save_stats sts (save_state st d)) a Hin Hbad)
    as [d' ->].
  eauto.
Qed.

End CrawlFacts.

Lemma enqueue_link_visited_repeat_witness :
  Nat.iter 3 (fun s => enqueue_link s Sample.jan)
    (mkCrawlState [Sample.feb] {[extract_unique_part Sample.jan]} [])
  = mkCrawlState [Sample.feb] {[extract_unique_part Sample.jan]} [].
Proof.
  apply (enqueue_link_visited_repeat 3
           (mkCrawlState [Sample.feb] {[extract_unique_part Sample.jan]} [])
           Sample.jan).
  by vm_compute.
Defined.

(** ** Enqueueing a followup link (C1) *)

(** C1.  The specification has [enqueue_link] change nothing when an entry
    of [urls_to_crawl] resolves to the link's key, and append otherwise.
    The code tests whether the key itself is an element of
    [urls_to_crawl], a list of URLs.  So a link is appended a second time
    next to a pending copy of itself (as when the page of January, popped
    while February is pending, lists both archives), and a link is dropped
    when the text of its key happens to be a pending URL, although no
    pending entry has that key. *)
Example enqueue_link_compares_key_with_urls :
  let url := "http://a/?m=201901" in
  (extract_unique_part url = "201901"
   ∧ urls_to_crawl (enqueue_link (mkCrawlState [url] ∅ []) url) = [url; url])
  ∧ urls_to_crawl
      (enqueue_links (mkCrawlState [Sample.feb] {[""]} []) [Sample.jan; Sample.feb])
    = [Sample.feb; Sample.jan; Sample.feb]
  ∧ (extract_unique_part "201901" = ""
     ∧ urls_to_crawl (enqueue_link (mkCrawlState ["201901"] ∅ []) url)
       = ["201901"]).
Proof. vm_compute. repeat split; reflexivity. Qed.

(** ** The invariant of the frontier (C2) *)

Section Frontier.
Context {E : Externals}.

Lemma pending_fresh_enqueue_links (st : CrawlState) (links : list string) :
  pending_fresh st → pending_fresh (enqueue_links st links).
Proof.
  intros Hfresh. destruct (enqueue_links_spec links st) as (new & -> & Hnew).
  intros url. simpl. intros [Hin|Hin]%elem_of_app.
  - by apply Hfresh.
  - by apply Hnew.
Qed.

Lemma crawl_loop_S fuel fetch w :
  crawl_loop (S fuel) fetch w
  = match crawl_iteration fetch w with
    | None => Some (Returned w)
    | Some (Raised w') => Some (Raised w')
    | Some (Returned w') => crawl_loop fuel fetch w'
    end.
Proof. reflexivity. Qed.

Lemma discarded_when_visited fetch w current_url rest :
  urls_to_crawl (state w) = current_url :: rest →
  extract_unique_part current_url ∈ crawled_urls (state w) →
  crawl_iteration fetch w
  = Some (Returned (mkWorld (set_urls_to_crawl rest (state w)) (stats w) (disk w))).
Proof.
  intros Hurls Hvisited. unfold crawl_iteration, loop_body. rewrite Hurls. simpl.
  by rewrite bool_decide_eq_true_2.
Qed.


End Frontier.



(** ** Pages that are not found, and what is written when (C3, C4) *)

Section Iterations.
Context {E : Externals}.


(** C4, as amended.  An iteration that discards a visited URL writes
    nothing.  On not-found the URL is appended to [errors_404] and only the
    404 report is rewritten, from that list: the state file, the
    statistics file, the report of dates and titles and the files of the
    posts are left as they were.  An iteration that ends in the [except]
    branch rewrites the state file and the statistics file with the state
    and the statistics it ends with, also when the report that is written
    after them raises; so does an iteration that processes a page and
    returns, or that raises no earlier than in that report (the files of
    its posts can be written, and [urlparse] takes its links). *)
Theorem iteration_persistence
    (fetch : string -> Outcome) (w : World) (current_url : string)
    (rest : list string) (r : Res World) :
  urls_to_crawl (state w) = current_url :: rest →
  urlparse_raises current_url = false →
  crawl_iteration fetch w = Some r →
  if bool_decide (extract_unique_part current_url ∈ crawled_urls (state w)) then
    ∃ w', r = Returned w'
      ∧ urls_to_crawl (state w') = rest
      ∧ crawled_urls (state w') = crawled_urls (state w)
      ∧ errors_404 (state w') = errors_404 (state w)
      ∧ stats w' = stats w
      ∧ disk w' = disk w
  else
    match fetch current_url with
    | Result None =>
        ∃ w', r = Returned w'
          ∧ urls_to_crawl (state w') = rest
          ∧ crawled_urls (state w') = crawled_urls (state w)
          ∧ errors_404 (state w') = errors_404 (state w) ++ [current_url]
          ∧ stats w' = stats w
          ∧ errors_file (disk w') = Some (errors_text (state w'))
          ∧ state_file (disk w') = state_file (disk w)
          ∧ stats_file (disk w') = stats_file (disk w)
          ∧ dates_titles_file (disk w') = dates_titles_file (disk w)
          ∧ blog_posts (disk w') = blog_posts (disk w)
    | Exception _ =>
        urls_to_crawl (state (res_value r)) = rest ++ [current_url]
        ∧ state_file (disk (res_value r)) = Some (state (res_value r))
        ∧ stats_file (disk (res_value r)) = Some (stats (res_value r))
        ∧ (∀ w', r = Returned w' →
             errors_file (disk w') = Some (errors_text (state w')))
    | Result (Some soup) =>
        (∀ w', r = Returned w' →
           state_file (disk w') = Some (state w')
           ∧ stats_file (disk w') = Some (stats w')
           ∧ errors_file (disk w') = Some (errors_text (state w')))
        ∧ (Forall (fun post => can_save post = true) (extract_posts soup) →
           Forall (fun link => urlparse_raises link = false)
             (extract_archive_links soup) →
           state_file (disk (res_value r)) = Some (state (res_value r))
           ∧ stats_file (disk (res_value r)) = Some (stats (res_value r)))
    end.
Proof.
  intros Hurls _ Hit. unfold crawl_iteration in Hit. rewrite Hurls in Hit.
  injection Hit as <-. unfold loop_body. simpl.
  destruct (bool_decide (extract_unique_part current_url ∈ crawled_urls (state w)));
    [eexists; by repeat split|].
  assert (Hpersist : ∀ st sts d,
    let r := with_disk st sts (persist st sts d) in
    state (res_value r) = st
    ∧ state_file (disk (res_value r)) = Some (state (res_value r))
    ∧ stats_file (disk (res_value r)) = Some (stats (res_value r))
    ∧ (∀ w', r = Returned w' →
         errors_file (disk w') = Some (errors_text (state w')))).
  { intros st sts d r. subst r.
    destruct (with_disk_value st sts (persist st sts d)) as (-> & -> & ->).
    destruct (persist_files st sts d) as [-> ->].
    split; [done|]. split; [done|]. split; [done|].
    intros w' (<- & _ & Hp)%with_disk_returned.
    by apply persist_errors_file in Hp. }
  destruct (fetch current_url) as [[soup|]|e].
  - match goal with
    | |- context [with_disk ?st ?sts (persist ?st ?sts ?d)] =>
        destruct (Hpersist st sts d) as (_ & Hsf & Hstf & Hef)
    end.
    split; [|done].
    intros w' Hr. rewrite Hr in Hsf, Hstf. simpl in Hsf, Hstf. auto.
  - eexists. by repeat split.
  - match goal with
    | |- context [with_disk ?st ?sts (persist ?st ?sts ?d)] =>
        destruct (Hpersist st sts d) as (Hst & Hsf & Hstf & Hef)
    end.
    split; [by rewrite Hst|]. by repeat split.
Qed.

End Iterations.



(** C4, as stated, fails.  The state file holds the state in memory; the
    fetch of the only pending URL returns not-found.  After the iteration
    the state in memory has no pending URL and one 404, the state file
    still has the URL pending and no 404: only the 404 report was
    written. *)
Lemma not_found_leaves_state_file_stale :
  ∃ w',
    crawl_iteration (E := Sample.externals) Sample.archive
      (mkWorld (mkCrawlState [Sample.feb] ∅ []) Sample.no_stats
         (save_state (mkCrawlState [Sample.feb] ∅ []) Sample.empty_disk))
    = Some (Returned w')
    ∧ state w' = mkCrawlState [] ∅ [Sample.feb]
    ∧ state_file (disk w') = Some (mkCrawlState [Sample.feb] ∅ [])
    ∧ state_file (disk w') ≠ Some (state w')
    ∧ errors_file (disk w') = Some (Sample.feb +:+ nl).
Proof.
  eexists. split; [vm_compute; reflexivity|].
  repeat split; try reflexivity. by intros [=].
Qed.

Lemma iteration_persistence_witness :
  ∃ w',
    crawl_iteration (E := Sample.externals) Sample.archive
      (Sample.start Sample.feb) = Some (Returned w')
    ∧ errors_404 (state w') = [Sample.feb]
    ∧ errors_file (disk w') = Some (errors_text (state w'))
    ∧ state_file (disk w') = None
    ∧ stats_file (disk w') = None
    ∧ dates_titles_file (disk w') = None
    ∧ blog_posts (disk w') = [].
Proof.
  pose proof (iteration_persistence (E := Sample.externals) Sample.archive
                (Sample.start Sample.feb) Sample.feb [] _
                eq_refl eq_refl eq_refl) as H.
  rewrite bool_decide_eq_false_2 in H by (by vm_compute).
  change (Sample.archive Sample.feb) with (Result None) in H.
  destruct H as (w' & Hr & _ & _ & Herrors & _ & Hef & Hsf & Hstf & Hdf & Hbp).
  exists w'. unfold crawl_iteration. simpl urls_to_crawl. cbv iota.
  rewrite Hr. by repeat split.
Defined.

(** ** Statistics (C8) *)

Lemma count_post_sum (s : Stats) (post : Post.t) :
  sum_values (articles_per_year (count_post s post))
  = sum_values (articles_per_year s) + 1.
Proof.
  unfold count_post. simpl. rewrite sum_values_set.
  unfold dict_mem, dict_get_default.
  destruct (dict_get (Post.year post) (articles_per_year s)) as [c|] eqn:Hget.
  - rewrite Hget. lia.
  - rewrite dict_get_set_eq, sum_values_set.
    unfold dict_get_default. rewrite Hget. lia.
Qed.

(** The year of the post is a key when its count is read: the default of
    [dict_get_default] in [count_post] is never used. *)
Lemma count_post_year_present (s : Stats) (post : Post.t) :
  dict_mem (Post.year post)
    (if dict_mem (Post.year post) (articles_per_year s)
     then articles_per_year s
     else dict_set (Post.year post) 0 (articles_per_year s)) = true.
Proof.
  destruct (dict_mem _ (articles_per_year s)) eqn:Hmem; [done|].
  unfold dict_mem. by rewrite dict_get_set_eq.
Qed.

Lemma count_post_monotone (s : Stats) (post : Post.t) (y : string) (c : Z) :
  dict_get y (articles_per_year s) = Some c →
  ∃ c', dict_get y (articles_per_year (count_post s post)) = Some c' ∧ c ≤ c'.
Proof.
  intros Hget. unfold count_post. simpl.
  destruct (decide (y = Post.year post)) as [->|Hne].
  - rewrite dict_get_set_eq. unfold dict_mem, dict_get_default.
    rewrite Hget, Hget. eexists. split; [done|lia].
  - rewrite dict_get_set_ne by done.
    destruct (dict_mem _ _).
    + exists c. split; [done|lia].
    + rewrite dict_get_set_ne by done. exists c. split; [done|lia].
Qed.

Lemma fold_count_post (posts : list Post.t) (s : Stats) :
  let s' := fold_left count_post posts s in
  sum_values (articles_per_year s')
  = sum_values (articles_per_year s) + Z.of_nat (length posts)
  ∧ total_articles s' = total_articles s
  ∧ articles s' = articles s ++ map article_of posts
  ∧ ∀ y c, dict_get y (articles_per_year s) = Some c →
      ∃ c', dict_get y (articles_per_year s') = Some c' ∧ c ≤ c'.
Proof.
  revert s. induction posts as [|post posts IH]; intros s; simpl.
  - rewrite app_nil_r. repeat split; try lia.
    intros y c Hget. exists c. split; [done|lia].
  - destruct (IH (count_post s post)) as (Hsum & Htotal & Harts & Hmono).
    rewrite Hsum, Htotal, Harts, count_post_sum. simpl.
    rewrite <- app_assoc. repeat split; try lia.
    intros y c Hget.
    destruct (count_post_monotone s post y c Hget) as (c1 & Hget1 & Hle1).
    destruct (Hmono y c1 Hget1) as (c2 & Hget2 & Hle2).
    exists c2. split; [done|lia].
Qed.

Lemma update_stats_articles (s : Stats) (posts : list Post.t) :
  articles (update_stats s posts) = articles s ++ map article_of posts.
Proof. unfold update_stats. simpl. apply fold_count_post. Qed.

(** C8.  [update_stats] keeps
    [total_articles == sum(articles_per_year.values()) == len(articles)],
    and only adds: every year keeps a count at least as large, the records
    so far stay at the front of [articles], the total does not shrink. *)
Theorem update_stats_conserved (s : Stats) (posts : list Post.t) :
  conserved s →
  conserved (update_stats s posts)
  ∧ (∀ y c, dict_get y (articles_per_year s) = Some c →
       ∃ c', dict_get y (articles_per_year (update_stats s posts)) = Some c'
             ∧ c ≤ c')
  ∧ articles (update_stats s posts) = articles s ++ map article_of posts
  ∧ total_articles (update_stats s posts)
    = total_articles s + Z.of_nat (length posts).
Proof.
  intros [Hsum Hlen].
  destruct (fold_count_post posts s) as (Hsum' & Htotal' & Harts' & Hmono').
  unfold conserved, update_stats. simpl.
  rewrite Hsum', Htotal', Harts', length_app, length_map.
  repeat split; try lia. exact Hmono'.
Qed.

Lemma update_stats_conserved_witness :
  conserved (mkStats [("2019", 1)] 1 [mkArticle "2019-03-01" "Spring"])
  ∧ conserved
      (update_stats (mkStats [("2019", 1)] 1 [mkArticle "2019-03-01" "Spring"])
         [Post.mk "post-2" "Summer" "" "2019-07-01" "" "2019";
          Post.mk "post-3" "Undated" "" "" "" "unknown"])
  ∧ articles_per_year
      (update_stats (mkStats [("2019", 1)] 1 [mkArticle "2019-03-01" "Spring"])
         [Post.mk "post-2" "Summer" "" "2019-07-01" "" "2019";
          Post.mk "post-3" "Undated" "" "" "" "unknown"])
    = [("2019", 2); ("unknown", 1)].
Proof.
  assert (H : conserved (mkStats [("2019", 1)] 1 [mkArticle "2019-03-01" "Spring"]))
    by (split; reflexivity).
  split; [exact H|]. split; [|reflexivity].
  exact (proj1 (update_stats_conserved _
           [Post.mk "post-2" "Summer" "" "2019-07-01" "" "2019";
            Post.mk "post-3" "Undated" "" "" "" "unknown"] H)).
Defined.

(** ** URLs without the parameter (C9) *)

Section SharedKey.
Context {E : Externals}.

(** C9, as amended.  A URL without a query parameter ["m"] (any URL
    without ["?"], for one) on which [urlparse] does not raise has the
    empty key.  Once the empty key is visited, such a URL is never
    enqueued as a followup link and is dropped when popped: nothing is
    fetched, and only the pending entry goes.  An iteration that
    processes such a URL and returns has made the empty key visited; and
    a run that resumes with nothing pending seeds the start URL, drops it
    and ends at once. *)
Theorem no_m_parameter_shares_empty_key (url : string) :
  urlparse_raises url = false →
  has_param "m" url = false →
  extract_unique_part url = ""
  ∧ (∀ other, str_contains "?" other = false → has_param "m" other = false)
  ∧ (∀ st, "" ∈ crawled_urls st → enqueue_link st url = st)
  ∧ (∀ fetch w rest,
       urls_to_crawl (state w) = url :: rest →
       "" ∈ crawled_urls (state w) →
       ∃ w',
         crawl_iteration fetch w = Some (Returned w')
         ∧ urls_to_crawl (state w') = rest
         ∧ crawled_urls (state w') = crawled_urls (state w)
         ∧ errors_404 (state w') = errors_404 (state w)
         ∧ stats w' = stats w
         ∧ disk w' = disk w)
  ∧ (∀ fetch w w' rest soup,
       urls_to_crawl (state w) = url :: rest →
       fetch url = Result (Some soup) →
       crawl_iteration fetch w = Some (Returned w') →
       "" ∈ crawled_urls (state w'))
  ∧ (∀ fuel fetch d st,
       state_file d = Some st →
       urls_to_crawl st = [] →
       "" ∈ crawled_urls st →
       crawl_site (S fuel) fetch url d
       = Some (Returned (mkWorld st (load_stats d) d))).
Proof.
  intros _ Hkey%no_param_key_empty.
  split; [done|]. split; [apply no_question_mark_no_param|].
  split; [|split; [|split]].
  - intros st Hv. apply enqueue_link_visited. by rewrite Hkey.
  - intros fetch w rest Hurls Hv. eexists. split.
    + apply (discarded_when_visited fetch w url rest Hurls). by rewrite Hkey.
    + done.
  - intros fetch w w' rest soup Hurls Hfetch Hit.
    unfold crawl_iteration in Hit. rewrite Hurls in Hit. injection Hit as Hit.
    unfold loop_body in Hit. simpl in Hit. rewrite Hkey, Hfetch in Hit.
    case_bool_decide as Hv; [by injection Hit as <-|].
    apply with_disk_returned in Hit as (-> & _ & _).
    simpl. apply elem_of_union_r. by apply elem_of_singleton.
  - intros fuel fetch d st Hfile Hurls Hv.
    unfold crawl_site, load_state. rewrite Hfile, Hurls.
    rewrite crawl_loop_S,
      (discarded_when_visited fetch _ url []); [|done|by simpl; rewrite Hkey].
    destruct st as [urls crawled errors]. simpl in *. subst urls.
    by destruct fuel.
Qed.

End SharedKey.

(** C9, as stated, fails: a URL whose network location opens a bracket
    that it does not close has no parameter ["m"], and [urlparse] raises
    [ValueError] on it (whatever its further checks would say), so that
    [extract_unique_part] returns no key. *)
Lemma url_without_m_has_no_key :
  has_param "m" "http://[a/" = false
  ∧ UrlLib.netloc "http://[a/" = "[a"
  ∧ xorb (str_contains "[" "[a") (str_contains "]" "[a") = true
  ∧ urlparse_raises (E := Sample.externals) "http://[a/" = true.
Proof. repeat split; reflexivity. Qed.

Lemma no_m_parameter_shares_empty_key_witness :
  (urlparse_raises (E := Sample.externals) Sample.seed = false
   ∧ has_param "m" Sample.seed = false)
  ∧ extract_unique_part Sample.seed = ""
  ∧ (∀ st, "" ∈ crawled_urls st → enqueue_link st Sample.seed = st).
Proof.
  assert (Ha : urlparse_raises (E := Sample.externals) Sample.seed = false)
    by reflexivity.
  assert (H : has_param "m" Sample.seed = false) by reflexivity.
  split; [by split|].
  pose proof (no_m_parameter_shares_empty_key (E := Sample.externals)
                Sample.seed Ha H) as (Hkey & _ & Henq & _).
  split; [exact Hkey|exact Henq].
Defined.

(** ** The report and dates that do not parse (C10) *)

Section ReportFacts.
Context {E : Externals}.

(** C10, as amended.  [save_dates_titles] raises whenever a record of
    [stats.articles] has a date that [fromisoformat] rejects.  A post
    without a [time] tag gets the empty date, which [fromisoformat]
    rejects: the iteration that processes a page with such a post, when
    it gets as far as the saving (the files of the posts can be written
    and [urlparse] takes the URL and the links of the page), ends with
    the exception, after the state file (with the page marked visited)
    and the statistics file (with the record of the post) were
    written. *)
Theorem undated_post_breaks_iteration
    (fetch : string -> Outcome) (w : World) (current_url : string)
    (rest : list string) (soup : Soup) (article : ArticleTag) :
  fromisoformat "" = None →
  urls_to_crawl (state w) = current_url :: rest →
  urlparse_raises current_url = false →
  extract_unique_part current_url ∉ crawled_urls (state w) →
  fetch current_url = Result (Some soup) →
  Forall (fun post => can_save post = true) (extract_posts soup) →
  Forall (fun link => urlparse_raises link = false) (extract_archive_links soup) →
  article ∈ content_articles soup →
  entry_time article = None →
  (∀ sts d a, a ∈ articles sts → fromisoformat (date a) = None →
     ∃ d', save_dates_titles sts d = Raised d')
  ∧ Post.entry_date (post_of_article article) = ""
  ∧ ∃ w',
      crawl_iteration fetch w = Some (Raised w')
      ∧ stats w' = update_stats (stats w) (extract_posts soup)
      ∧ mkArticle "" (Post.title (post_of_article article)) ∈ articles (stats w')
      ∧ stats_file (disk w') = Some (stats w')
      ∧ state_file (disk w') = Some (state w')
      ∧ extract_unique_part current_url ∈ crawled_urls (state w').
Proof.
  intros Hempty Hurls _ Hnew Hfetch _ _ Hin Htime.
  split; [apply save_dates_titles_raises|].
  assert (Hdate : Post.entry_date (post_of_article article) = "")
    by (unfold post_of_article; simpl; by rewrite Htime).
  split; [done|].
  unfold crawl_iteration, loop_body. rewrite Hurls. simpl.
  rewrite (bool_decide_eq_false_2 _ Hnew), Hfetch.
  set (sts := update_stats (stats w) (extract_posts soup)).
  assert (Hrec : mkArticle "" (Post.title (post_of_article article)) ∈ articles sts).
  { unfold sts. rewrite update_stats_articles. apply elem_of_app. right.
    rewrite <- Hdate. change (article_of (post_of_article article) ∈
      map article_of (extract_posts soup)).
    apply list_elem_of_In, in_map, list_elem_of_In.
    unfold extract_posts. by apply list_elem_of_In, in_map, list_elem_of_In. }
  match goal with
  | |- context [persist ?st sts ?d] =>
      destruct (persist_raises st sts d _ Hrec Hempty) as [d' Hp];
      pose proof (persist_files st sts d) as [Hsf Hstf];
      rewrite Hp in *
  end.
  simpl in *. eexists. split; [reflexivity|]. simpl.
  repeat split; try done.
  apply elem_of_union_r. by apply elem_of_singleton.
Qed.

End ReportFacts.

(** C10, as stated, fails: [fromisoformat] takes texts that are no ISO
    8601, such as a date and a time with any character between them.  A
    post dated ["2019-03-01X10:00"] is processed, recorded and reported,
    and the iteration returns. *)
Lemma report_takes_a_date_that_is_not_iso_8601 :
  entry_time Sample.misdated = Some "2019-03-01X10:00"
  ∧ String.get 10 "2019-03-01X10:00" = Some "X"%char
  ∧ ∃ w',
      crawl_iteration (E := Sample.externals)
        (fun _ => Result (Some (mkSoup [Sample.misdated] [])))
        (Sample.start Sample.seed) = Some (Returned w')
      ∧ articles (stats w') = [mkArticle "2019-03-01X10:00" "Hello"]
      ∧ stats_file (disk w') = Some (stats w')
      ∧ dates_titles_file (disk w')
        = Some ("2019, 1 posts" +:+ nl +:+ nl +:+ "2019-03-01 10:00 Hello" +:+ nl).
Proof.
  split; [reflexivity|]. split; [reflexivity|].
  eexists. split; [vm_compute; reflexivity|]. repeat split; reflexivity.
Qed.

Lemma undated_post_breaks_iteration_witness :
  Post.entry_date (post_of_article (E := Sample.externals) Sample.undated) = ""
  ∧ ∃ w',
      crawl_iteration (E := Sample.externals)
        (fun _ => Result (Some (mkSoup [Sample.undated] [])))
        (Sample.start Sample.seed) = Some (Raised w')
      ∧ stats w'
        = update_stats Sample.no_stats
            (extract_posts (E := Sample.externals) (mkSoup [Sample.undated] []))
      ∧ mkArticle "" (Post.title (post_of_article (E := Sample.externals) Sample.undated))
        ∈ articles (stats w')
      ∧ stats_file (disk w') = Some (stats w')
      ∧ state_file (disk w') = Some (state w')
      ∧ extract_unique_part Sample.seed ∈ crawled_urls (state w').
Proof.
  refine (proj2 (undated_post_breaks_iteration (E := Sample.externals)
            (fun _ => Result (Some (mkSoup [Sample.undated] [])))
            (Sample.start Sample.seed) Sample.seed [] (mkSoup [Sample.undated] [])
            Sample.undated eq_refl eq_refl eq_refl _ eq_refl _ _ _ eq_refl)).
  - by vm_compute.
  - repeat constructor.
  - constructor.
  - simpl. by apply list_elem_of_singleton.
Defined.

(** ** The retry policy (C5, C6, C7) *)

#[local] Arguments stop_after_attempt : simpl never.
#[local] Arguments wait_exponential : simpl never.
#[local] Arguments wait_if_retry_after : simpl never.

Section FetcherFacts.
Context {E : Externals}.

Lemma retrying_not_retried fuel n net e :
  fetch_page_body (net n) = Exception e → retry_condition e = false →
  retrying fuel n net = (Some (Exception e), [Get n]).
Proof. intros Hbody Hretry. destruct fuel; simpl; by rewrite Hbody, Hretry. Qed.

Lemma retrying_http_error fuel n net response :
  net n = Responds response → raise_for_status response = true →
  status_code response ≠ 404 →
  retrying fuel n net = (Some (Exception (HTTPError response)), [Get n]).
Proof.
  intros Hnet Hraise Hstatus. apply retrying_not_retried; [|done].
  unfold fetch_page_body. rewrite Hnet, Hraise.
  by apply Z.eqb_neq in Hstatus as ->.
Qed.

(** After a failure that the policy retries, with another attempt left:
    the wait of the hook, the computed wait, and the next attempt. *)
Lemma retrying_retried fuel n net response :
  (n < 5)%nat → net n = Fails response →
  (∀ e, wait_if_retry_after n (Exception (RequestException response))
        ≠ HookRaised e) →
  retrying (S fuel) n net
  = (fst (retrying fuel (S n) net),
     Get n
     :: match wait_if_retry_after n (Exception (RequestException response)) with
        | Waited seconds => [Sleep seconds]
        | _ => []
        end
     ++ Sleep (wait_exponential 5 30 300 n) :: snd (retrying fuel (S n) net)).
Proof.
  intros Hn Hnet Hhook. cbn [retrying]. unfold fetch_page_body. rewrite Hnet.
  cbn [retry_condition isinstance_RequestException isinstance_HTTPError
       negb andb].
  unfold stop_after_attempt.
  destruct (Nat.leb_spec 5 n) as [?|_]; [lia|].
  destruct (wait_if_retry_after n (Exception (RequestException response)))
    as [|seconds|e]; [| |by destruct (Hhook e)];
    by destruct (retrying fuel (S n) net).
Qed.

(** A failure that the policy would retry, with a hook that raises: the
    exception of the hook leaves [fetch_page] at once. *)
Lemma retrying_hook_raised fuel n net response e :
  (n < 5)%nat → net n = Fails response →
  wait_if_retry_after n (Exception (RequestException response)) = HookRaised e →
  retrying fuel n net = (Some (Exception e), [Get n]).
Proof.
  intros Hn Hnet Hhook.
  destruct fuel; cbn [retrying]; unfold fetch_page_body; rewrite Hnet;
    cbn [retry_condition isinstance_RequestException isinstance_HTTPError
         negb andb];
    unfold stop_after_attempt; (destruct (Nat.leb_spec 5 n); [lia|]);
    by rewrite Hhook.
Qed.

(** The hook on a failure that carries a header. *)
Lemma hook_header n response header :
  retry_after response = Some header → header ≠ "" →
  wait_if_retry_after n (Exception (RequestException (Some response)))
  = match header_seconds n header with
    | None => HookRaised ValueError
    | Some seconds =>
        match sleep_exception seconds with
        | Some e => HookRaised e
        | None => Waited seconds
        end
    end.
Proof.
  intros Hheader Hne. unfold wait_if_retry_after. simpl.
  rewrite Hheader. by destruct header.
Qed.

(** [time.sleep] takes the lengths from zero to the longest that the
    platform takes, and none beyond 9223372036 seconds. *)
Lemma sleep_exception_none (seconds : Z) :
  sleep_exception seconds = None
  ↔ 0 ≤ seconds ∧ seconds ≤ sleep_max ∧ seconds ≤ 9223372036.
Proof.
  unfold sleep_exception.
  destruct (Z.ltb_spec seconds (-9223372036)), (Z.ltb_spec 9223372036 seconds),
    (Z.ltb_spec seconds 0), (Z.leb_spec seconds sleep_max); simpl;
    split; try done; try lia; intros (? & ? & ?); lia.
Qed.

(** [fetch_page] always comes to an end: the fuel of [retrying] suffices. *)
Lemma retrying_returns fuel n net :
  (5 ≤ n + fuel)%nat → is_Some (fst (retrying fuel n net)).
Proof.
  revert n. induction fuel as [|fuel IH]; intros n Hn; cbn [retrying];
    destruct (fetch_page_body (net n)) as [soup|e] eqn:Hbody; try by eexists.
  - destruct (retry_condition e); simpl; [|by eexists].
    unfold stop_after_attempt.
    destruct (Nat.leb_spec 5 n); simpl; [by eexists|lia].
  - destruct (retry_condition e); simpl; [|by eexists].
    destruct (stop_after_attempt 5 n); simpl; [by eexists|].
    specialize (IH (S n) ltac:(lia)).
    destruct (wait_if_retry_after n (Exception e));
      destruct (retrying fuel (S n) net); simpl in *; try done; by eexists.
Qed.

Lemma retrying_schedule fuel n net :
  (5 ≤ n + fuel)%nat →
  ∃ hooks, (n + length hooks ≤ Nat.max n 5)%nat
           ∧ snd (retrying fuel n net) = schedule n hooks.
Proof.
  revert n. induction fuel as [|fuel IH]; intros n Hn; cbn [retrying];
    destruct (fetch_page_body (net n)) as [soup|e] eqn:Hbody;
    try (exists []; simpl; split; [lia|done]).
  - destruct (retry_condition e); simpl; [|exists []; simpl; split; [lia|done]].
    unfold stop_after_attempt.
    destruct (Nat.leb_spec 5 n); [exists []; simpl; split; [lia|done]|lia].
  - destruct (retry_condition e); simpl; [|exists []; simpl; split; [lia|done]].
    unfold stop_after_attempt.
    destruct (Nat.leb_spec 5 n); [exists []; simpl; split; [lia|done]|].
    destruct (IH (S n) ltac:(lia)) as (hooks & Hlen & Hsched).
    destruct (wait_if_retry_after n (Exception e)) as [|seconds|];
      [exists (None :: hooks)|exists (Some seconds :: hooks)
      |exists []; simpl; split; [lia|done]];
      destruct (retrying fuel (S n) net); simpl in *; rewrite Hsched;
      (split; [lia|done]).
Qed.

(** C5, as amended.  A response with an error status other than 404
    makes [fetch_page] raise its [HTTPError] at once, with no wait and no
    further attempt: the policy excludes [HTTPError].  A failure of the
    request itself (connection failure, timeout) is retried while attempts
    are left: after the computed wait comes the next attempt. *)
Theorem http_error_not_retried
    (fuel n : nat) (net : nat -> Reply) (response : Response) :
  net n = Responds response →
  raise_for_status response = true →
  status_code response ≠ 404 →
  retrying fuel n net = (Some (Exception (HTTPError response)), [Get n])
  ∧ ∀ net' fuel',
      (n < 5)%nat → net' n = Fails None →
      retrying (S fuel') n net'
      = (fst (retrying fuel' (S n) net'),
         Get n :: Sleep (wait_exponential 5 30 300 n)
           :: snd (retrying fuel' (S n) net')).
Proof.
  intros Hnet Hraise Hstatus. split.
  - by apply retrying_http_error.
  - intros net' fuel' Hn Hnet'.
    by rewrite (retrying_retried fuel' n net' None Hn Hnet').
Qed.

(** C6, as amended.  When a retried failure carries a response whose
    [Retry-After] header gives a number of seconds (as an integer, else
    as the distance to an HTTP date) that [time.sleep] takes (not
    negative, within what the platform takes and within the 9223372036
    seconds of its clock), the hook sleeps that long and the policy then
    sleeps its computed wait as well: the next attempt comes after their
    sum.  An error status (a 429 or a 503, say) is not retried at all,
    whatever its header. *)
Theorem retry_after_wait_precedes_backoff
    (fuel n : nat) (net : nat -> Reply) (response : Response)
    (header : string) (seconds : Z) :
  (n < 5)%nat →
  net n = Fails (Some response) →
  retry_after response = Some header →
  header ≠ "" →
  header_seconds n header = Some seconds →
  0 ≤ seconds →
  seconds ≤ sleep_max →
  seconds ≤ 9223372036 →
  retrying (S fuel) n net
  = (fst (retrying fuel (S n) net),
     Get n :: Sleep seconds :: Sleep (wait_exponential 5 30 300 n)
       :: snd (retrying fuel (S n) net))
  ∧ ∀ net' fuel' response',
      net' n = Responds response' →
      raise_for_status response' = true →
      status_code response' ≠ 404 →
      retrying fuel' n net' = (Some (Exception (HTTPError response')), [Get n]).
Proof.
  intros Hn Hnet Hheader Hne Hsec Hpos Hmax Hclock. split.
  - assert (Hhook : wait_if_retry_after n
                      (Exception (RequestException (Some response)))
                    = Waited seconds).
    { rewrite (hook_header n response header Hheader Hne), Hsec.
      by rewrite (proj2 (sleep_exception_none seconds)). }
    rewrite (retrying_retried fuel n net (Some response) Hn Hnet); rewrite Hhook;
      done.
  - intros net' fuel' response'. apply retrying_http_error.
Qed.

(** C7, as amended.  [fetch_page] comes to an end after at most five
    attempts; it starts with an attempt, and before each further attempt
    it waits for the wait of the hook, if any, and for the computed wait,
    which after the failed attempt [k] is
    [max(30, min(5 * 2 ** (k - 1), 300))], between 30 and 300 seconds:
    30, 30, 30 and 40 seconds. *)
Theorem fetch_page_schedule (net : nat -> Reply) :
  ∃ hooks,
    (length hooks ≤ 4)%nat
    ∧ is_Some (fst (fetch_page net))
    ∧ snd (fetch_page net) = schedule 1 hooks
    ∧ length (gets (schedule 1 hooks)) = S (length hooks)
    ∧ map (wait_exponential 5 30 300) [1; 2; 3; 4]%nat = [30; 30; 30; 40]
    ∧ ∀ k, 30 ≤ wait_exponential 5 30 300 k ≤ 300.
Proof.
  destruct (retrying_schedule 4 1 net ltac:(lia)) as (hooks & Hlen & Hsched).
  exists hooks. split; [simpl in Hlen; lia|].
  split; [apply retrying_returns; lia|]. split; [done|].
  split; [|split; [reflexivity|intros k; unfold wait_exponential; lia]].
  clear. generalize 1%nat. induction hooks as [|hook hooks IH]; intros n;
    [done|].
  specialize (IH (S n)). unfold gets in *.
  destruct hook; simpl; by rewrite IH.
Qed.

End FetcherFacts.

(** C5, as stated, fails: the server answers 500 once and would answer
    200 next; [fetch_page] raises after the first attempt. *)
Lemma server_error_not_retried :
  fetch_page (E := Sample.externals) Sample.error_then_ok
  = (Some (Exception (HTTPError Sample.server_error)), [Get 1])
  ∧ fetch_page_body (Sample.error_then_ok 2)
    = Result (Some (parsed_text Sample.ok)).
Proof. split; reflexivity. Qed.

Lemma http_error_not_retried_witness :
  fetch_page (E := Sample.externals) Sample.error_then_ok
  = (Some (Exception (HTTPError Sample.server_error)), [Get 1])
  ∧ ∀ net' fuel',
      (1 < 5)%nat → net' 1%nat = Fails None →
      retrying (E := Sample.externals) (S fuel') 1 net'
      = (fst (retrying (E := Sample.externals) fuel' 2 net'),
         Get 1 :: Sleep (wait_exponential 5 30 300 1)
           :: snd (retrying (E := Sample.externals) fuel' 2 net')).
Proof.
  refine (http_error_not_retried (E := Sample.externals) 4 1
            Sample.error_then_ok Sample.server_error eq_refl eq_refl _).
  simpl. lia.
Defined.

(** C6, as stated, fails: after a failure that carries
    [Retry-After: 120], the second attempt comes after 120 and 30
    seconds; and after a 503 with that header there is no wait and no
    second attempt. *)
Lemma retry_after_adds_to_backoff :
  (fetch_page (E := Sample.externals) Sample.redirects_then_ok
   = (Some (Result (Some (parsed_text Sample.ok))),
      [Get 1; Sleep 120; Sleep 30; Get 2])
   ∧ sleeps [Get 1; Sleep 120; Sleep 30; Get 2] = [120; 30])
  ∧ fetch_page (E := Sample.externals) Sample.busy_then_ok
    = (Some (Exception (HTTPError Sample.busy)), [Get 1]).
Proof. repeat split; reflexivity. Qed.

Lemma retry_after_wait_precedes_backoff_witness :
  retrying (E := Sample.externals) 4 1 Sample.redirects_then_ok
  = (fst (retrying (E := Sample.externals) 3 2 Sample.redirects_then_ok),
     Get 1 :: Sleep 120 :: Sleep (wait_exponential 5 30 300 1)
       :: snd (retrying (E := Sample.externals) 3 2 Sample.redirects_then_ok)).
Proof.
  refine (proj1 (retry_after_wait_precedes_backoff (E := Sample.externals)
            3 1 Sample.redirects_then_ok Sample.redirect "120" 120
            _ eq_refl eq_refl _ eq_refl _ _ _)).
  - lia.
  - discriminate.
  - lia.
  - by vm_compute.
  - lia.
Defined.

(** C7, as stated, fails: on a network that is never reachable the waits
    are 30, 30, 30 and 40 seconds, not 30, 60, 120 and 240. *)
Lemma backoff_does_not_double :
  fetch_page (E := Sample.externals) Sample.down
  = (Some (Exception (RetryError (RequestException None))),
     [Get 1; Sleep 30; Get 2; Sleep 30; Get 3; Sleep 30; Get 4; Sleep 40; Get 5])
  ∧ wait_exponential 5 30 300 2 = 30.
Proof. split; reflexivity. Qed.

(** * Further properties of the code *)

(** ** Strings *)

#[local] Arguments String.append : simpl nomatch.

Lemma append_empty_r (s : string) : s +:+ "" = s.
Proof. induction s as [|a s IH]; simpl; [done|by rewrite IH]. Qed.

Lemma append_assoc (s t u : string) : (s +:+ t) +:+ u = s +:+ (t +:+ u).
Proof. induction s as [|a s IH]; simpl; [done|by rewrite IH]. Qed.

Lemma append_inj_r (s t u : string) : s +:+ t = s +:+ u → t = u.
Proof. induction s as [|a s IH]; simpl; [done|]. intros [= H]. auto. Qed.

Lemma concat_cons (s : string) (l : list string) :
  String.concat "" (s :: l) = s +:+ String.concat "" l.
Proof. destruct l; simpl; [by rewrite append_empty_r|done]. Qed.

Lemma str_contains_append c s t :
  str_contains c (s +:+ t) = str_contains c s || str_contains c t.
Proof.
  induction s as [|a s IH]; simpl; [done|]. by rewrite IH, orb_assoc.
Qed.

(** Cutting at the first [c], when the text before it is known. *)
Lemma str_partition_at c s t :
  str_contains c s = false → str_partition c (s +:+ String c t) = (s, Some t).
Proof.
  induction s as [|a s IH]; simpl.
  - by rewrite Ascii.eqb_refl.
  - intros [Ha Hs]%orb_false_iff. by rewrite Ha, (IH Hs).
Qed.

Lemma str_partition_after c s t :
  str_contains c s = false →
  str_partition c (s +:+ t)
  = (s +:+ fst (str_partition c t), snd (str_partition c t)).
Proof.
  induction s as [|a s IH]; simpl.
  - by destruct (str_partition c t).
  - intros [Ha Hs]%orb_false_iff. by rewrite Ha, (IH Hs).
Qed.

Lemma lstrip_c0_before c s t :
  UrlLib.c0_control_or_space c = false →
  UrlLib.lstrip_c0 (s +:+ String c t) = UrlLib.lstrip_c0 s +:+ String c t.
Proof.
  intros Hc. induction s as [|a s IH]; simpl.
  - by rewrite Hc.
  - by destruct (UrlLib.c0_control_or_space a).
Qed.

Lemma remove_unsafe_append s t :
  UrlLib.remove_unsafe (s +:+ t)
  = UrlLib.remove_unsafe s +:+ UrlLib.remove_unsafe t.
Proof.
  induction s as [|a s IH]; simpl; [done|].
  destruct (UrlLib.unsafe_url_byte a); simpl; by rewrite IH.
Qed.

(** ** The key of a URL: what it depends on *)

(** The query of a URL whose part before the first ["?"] is known. *)
Lemma query_after_prefix (prefix q : string) :
  str_contains "?" prefix = false → str_contains "#" prefix = false →
  UrlLib.query (prefix +:+ "?" +:+ q)
  = fst (str_partition "#" (UrlLib.remove_unsafe q)).
Proof.
  intros Hq Hh. unfold UrlLib.query.
  change (prefix +:+ "?" +:+ q) with (prefix +:+ String "?" q).
  rewrite lstrip_c0_before by done.
  rewrite remove_unsafe_append.
  change (UrlLib.remove_unsafe (String "?" q))
    with (String "?" (UrlLib.remove_unsafe q)).
  set (p := UrlLib.remove_unsafe (UrlLib.lstrip_c0 prefix)).
  assert (Hpq : str_contains "?" p = false)
    by (by apply remove_unsafe_lacks, lstrip_c0_lacks).
  assert (Hph : str_contains "#" p = false)
    by (by apply remove_unsafe_lacks, lstrip_c0_lacks).
  rewrite (str_partition_after "#" p _ Hph). simpl.
  destruct (str_partition "#" (UrlLib.remove_unsafe q)) as [x frag]. simpl.
  change (p +:+ String "?" x) with (p +:+ String "?" x).
  by rewrite (str_partition_at "?" p x Hpq).
Qed.

(** X2.  The key of a URL depends on its query only: two URLs with the
    same text after the first ["?"], on neither of which [urlparse]
    raises, have the same key, whatever their scheme, host and path. *)
Theorem key_ignores_host_and_path {E : Externals} (prefix1 prefix2 q : string) :
  str_contains "?" prefix1 = false → str_contains "#" prefix1 = false →
  str_contains "?" prefix2 = false → str_contains "#" prefix2 = false →
  urlparse_raises (prefix1 +:+ "?" +:+ q) = false →
  urlparse_raises (prefix2 +:+ "?" +:+ q) = false →
  extract_unique_part (prefix1 +:+ "?" +:+ q)
  = extract_unique_part (prefix2 +:+ "?" +:+ q).
Proof.
  intros H1 H2 H3 H4 _ _. unfold extract_unique_part.
  by rewrite !query_after_prefix.
Qed.

Lemma key_ignores_host_and_path_witness :
  extract_unique_part
    ("https://web.archive.org/web/20240910152712/http://reinderbruinsma.com/"
       +:+ "?" +:+ "m=201901")
  = extract_unique_part ("http://reinderbruinsma.com/" +:+ "?" +:+ "m=201901").
Proof.
  apply (key_ignores_host_and_path (E := Sample.externals)); reflexivity.
Defined.

(** X3.  The fragment of a URL never changes its key. *)
Theorem key_ignores_fragment (url fragment : string) :
  str_contains "#" url = false →
  extract_unique_part (url +:+ "#" +:+ fragment) = extract_unique_part url.
Proof.
  intros Hh. unfold extract_unique_part, UrlLib.query.
  change (url +:+ "#" +:+ fragment) with (url +:+ String "#" fragment).
  rewrite lstrip_c0_before by done.
  rewrite remove_unsafe_append.
  change (UrlLib.remove_unsafe (String "#" fragment))
    with (String "#" (UrlLib.remove_unsafe fragment)).
  assert (Hp : str_contains "#" (UrlLib.remove_unsafe (UrlLib.lstrip_c0 url)) = false)
    by (by apply remove_unsafe_lacks, lstrip_c0_lacks).
  by rewrite (str_partition_at "#" _ _ Hp), (str_partition_absent "#" _ Hp).
Qed.

Lemma key_ignores_fragment_witness :
  extract_unique_part ("http://a/?m=201901" +:+ "#" +:+ "comments")
  = extract_unique_part "http://a/?m=201901".
Proof. apply key_ignores_fragment. reflexivity. Defined.

(** Every value that [parse_qsl] yields is non-empty. *)
Lemma unquote_to_bytes_nonempty (s : string) :
  s ≠ "" → UrlLib.unquote_to_bytes s ≠ "".
Proof.
  destruct s as [|c r]; [done|]. intros _. cbn [UrlLib.unquote_to_bytes].
  destruct (Ascii.eqb c "%"); [|done].
  destruct r as [|h [|l r']]; try done.
  by destruct (UrlLib.hex_value h), (UrlLib.hex_value l).
Qed.

Lemma decode_replace_nonempty (s : string) :
  s ≠ "" → UrlLib.decode_replace s ≠ "".
Proof.
  destruct s as [|a r]; [done|]. intros _. cbn [UrlLib.decode_replace].
  unfold UrlLib.replacement. repeat case_match; done.
Qed.

Lemma unquote_plus_nonempty (s : string) : s ≠ "" → UrlLib.unquote_plus s ≠ "".
Proof.
  intros Hs. unfold UrlLib.unquote_plus, UrlLib.unquote.
  apply decode_replace_nonempty, unquote_to_bytes_nonempty.
  by destruct s.
Qed.

Lemma parse_qsl_values_nonempty (qs : string) (p : string * string) :
  In p (UrlLib.parse_qsl qs) → snd p ≠ "".
Proof.
  unfold UrlLib.parse_qsl. rewrite in_flat_map. intros (field & _ & Hin).
  unfold UrlLib.parse_field in Hin.
  destruct (str_empty field); [done|].
  destruct (str_partition "=" field) as [name [value|]]; [|done].
  destruct value as [|c r]; [done|]. simpl in Hin.
  destruct Hin as [<-|[]]. by apply unquote_plus_nonempty.
Qed.

Lemma first_value_nonempty k (pairs : list (string * string)) :
  (∀ p, In p pairs → snd p ≠ "") →
  existsb (fun p => String.eqb (fst p) k) pairs = true →
  hd "" (values_of k pairs) ≠ "".
Proof.
  induction pairs as [|p pairs IH]; [done|]. intros Hall. simpl.
  rewrite values_of_cons. destruct (String.eqb (fst p) k); simpl.
  - intros _. apply Hall. by left.
  - apply IH. intros q Hq. apply Hall. by right.
Qed.

(** X4.  Among the URLs on which [urlparse] does not raise, the key is
    empty exactly for those without a parameter ["m"] that has a value: a
    URL with such a parameter never shares the key of the start page. *)
Theorem key_empty_iff_no_m_param {E : Externals} (url : string) :
  urlparse_raises url = false →
  extract_unique_part url = "" ↔ has_param "m" url = false.
Proof.
  intros _. split; [|apply no_param_key_empty].
  intros Hkey. destruct (has_param "m" url) eqn:Hp; [|done].
  exfalso. rewrite extract_unique_part_first_value in Hkey.
  revert Hkey. apply first_value_nonempty; [|done].
  apply parse_qsl_values_nonempty.
Qed.

Lemma key_empty_iff_no_m_param_witness :
  urlparse_raises (E := Sample.externals) Sample.seed = false
  ∧ (extract_unique_part Sample.seed = "" ↔ has_param "m" Sample.seed = false).
Proof.
  split; [reflexivity|].
  apply (key_empty_iff_no_m_param (E := Sample.externals) Sample.seed).
  reflexivity.
Defined.

(** ** Statistics: counts and the order of the years *)

Lemma dict_get_default_set_eq {V} k (v dflt : V) d :
  dict_get_default k dflt (dict_set k v d) = v.
Proof. unfold dict_get_default. by rewrite dict_get_set_eq. Qed.

Lemma dict_get_default_set_ne {V} k k' (v dflt : V) d :
  k ≠ k' → dict_get_default k dflt (dict_set k' v d) = dict_get_default k dflt d.
Proof. intros H. unfold dict_get_default. by rewrite dict_get_set_ne. Qed.

Lemma dict_mem_set {V} k k' (v : V) d :
  dict_mem k (dict_set k' v d) = String.eqb k' k || dict_mem k d.
Proof.
  unfold dict_mem. destruct (String.eqb_spec k' k) as [->|Hne]; simpl.
  - by rewrite dict_get_set_eq.
  - by rewrite dict_get_set_ne.
Qed.

Lemma dict_mem_keys {V} k (d : dict V) : dict_mem k d = true ↔ In k (map fst d).
Proof.
  unfold dict_mem. induction d as [|[k' v] d IH]; simpl; [by split|].
  destruct (String.eqb_spec k k') as [->|Hne]; [by split; [left|]|].
  rewrite IH. split; [by right|]. by intros [?|?].
Qed.

Lemma dict_set_keys {V} k (v : V) d :
  map fst (dict_set k v d)
  = if dict_mem k d then map fst d else map fst d ++ [k].
Proof.
  unfold dict_mem. induction d as [|[k' v'] d IH]; simpl; [done|].
  destruct (String.eqb_spec k k') as [->|Hne]; simpl; [done|].
  rewrite IH. by destruct (dict_get k d).
Qed.

Lemma count_post_get (y : string) (s : Stats) (post : Post.t) :
  dict_get_default y 0 (articles_per_year (count_post s post))
  = dict_get_default y 0 (articles_per_year s)
    + (if String.eqb (Post.year post) y then 1 else 0).
Proof.
  unfold count_post. simpl.
  destruct (String.eqb_spec (Post.year post) y) as [<-|Hne].
  - rewrite dict_get_default_set_eq.
    destruct (dict_mem _ _) eqn:Hmem; [done|].
    rewrite dict_get_default_set_eq. unfold dict_mem in Hmem.
    unfold dict_get_default. by destruct (dict_get _ _).
  - rewrite dict_get_default_set_ne by done.
    destruct (dict_mem _ _); [lia|].
    rewrite dict_get_default_set_ne by done. lia.
Qed.

Lemma count_post_keys (s : Stats) (post : Post.t) :
  map fst (articles_per_year (count_post s post))
  = if dict_mem (Post.year post) (articles_per_year s)
    then map fst (articles_per_year s)
    else map fst (articles_per_year s) ++ [Post.year post].
Proof.
  unfold count_post. simpl. rewrite dict_set_keys, count_post_year_present.
  destruct (dict_mem _ (articles_per_year s)) eqn:Hmem; [done|].
  by rewrite dict_set_keys, Hmem.
Qed.

(** X5.  After [update_stats] the count of a year is its count before
    (zero for a year that was no key) plus the number of the posts of that
    year, and a year is a key exactly when it was one or a post has it. *)
Theorem update_stats_counts_years (s : Stats) (posts : list Post.t) (y : string) :
  dict_get_default y 0 (articles_per_year (update_stats s posts))
  = dict_get_default y 0 (articles_per_year s)
    + Z.of_nat (length (filter (fun post => Post.year post = y) posts))
  ∧ dict_mem y (articles_per_year (update_stats s posts))
    = dict_mem y (articles_per_year s)
      || existsb (fun post => String.eqb (Post.year post) y) posts.
Proof.
  unfold update_stats. simpl. revert s.
  induction posts as [|post posts IH]; intros s; simpl.
  - split; [lia|by rewrite orb_false_r].
  - destruct (IH (count_post s post)) as [-> ->].
    rewrite count_post_get, filter_cons. split.
    + destruct (String.eqb_spec (Post.year post) y); case_decide; try done;
        simpl; lia.
    + unfold count_post. simpl. rewrite dict_mem_set.
      destruct (String.eqb_spec (Post.year post) y) as [<-|Hne]; simpl;
        [by rewrite orb_true_r|].
      destruct (dict_mem (Post.year post) (articles_per_year s)); [done|].
      rewrite dict_mem_set.
      by destruct (String.eqb_spec (Post.year post) y).
Qed.

(** X6.  [update_stats] keeps the years that are keys in their places and
    puts the new years behind them, each once: the keys stay without
    repetition, and every new key is the year of one of the posts. *)
Theorem update_stats_keeps_year_order (s : Stats) (posts : list Post.t) :
  ∃ new,
    map fst (articles_per_year (update_stats s posts))
    = map fst (articles_per_year s) ++ new
    ∧ (NoDup (map fst (articles_per_year s)) →
       NoDup (map fst (articles_per_year (update_stats s posts))))
    ∧ ∀ y, In y new → ∃ post, In post posts ∧ Post.year post = y.
Proof.
  unfold update_stats. simpl. revert s.
  induction posts as [|post posts IH]; intros s; simpl.
  - exists []. rewrite app_nil_r. by repeat split.
  - destruct (IH (count_post s post)) as (new & Hkeys & Hnodup & Hnew).
    rewrite Hkeys in *. rewrite count_post_keys in *.
    destruct (dict_mem (Post.year post) (articles_per_year s)) eqn:Hmem.
    + exists new. split; [done|]. split; [done|].
      intros y Hy. destruct (Hnew y Hy) as (p & Hp & <-). exists p. by split; [right|].
    + exists (Post.year post :: new). split; [by rewrite <- app_assoc|]. split.
      * intros Hnd. apply Hnodup.
        assert (Hnot : ¬ In (Post.year post) (map fst (articles_per_year s))).
        { intros Hin%dict_mem_keys. congruence. }
        apply NoDup_app. split; [done|]. split; [|apply NoDup_singleton].
        intros x Hx%list_elem_of_In ->%list_elem_of_singleton. done.
      * intros y [<-|Hy]; [exists post; by split; [left|]|].
        destruct (Hnew y Hy) as (p & Hp & <-). exists p. by split; [right|].
Qed.

(** ** The files of a post *)

Lemma dict_set_same {V} k (v : V) d :
  dict_get k d = Some v → dict_set k v d = d.
Proof.
  induction d as [|[k' v'] d IH]; simpl; [done|].
  destruct (String.eqb_spec k k') as [->|Hne]; [by intros [= ->]|].
  intros H. by rewrite IH.
Qed.

(** Two writes under different keys, and the same two writes again. *)
Lemma dict_two_writes {V} k1 k2 (v1 v2 : V) d :
  k1 ≠ k2 →
  dict_set k2 v2 (dict_set k1 v1 (dict_set k2 v2 (dict_set k1 v1 d)))
  = dict_set k2 v2 (dict_set k1 v1 d)
  ∧ dict_get k1 (dict_set k2 v2 (dict_set k1 v1 d)) = Some v1
  ∧ dict_get k2 (dict_set k2 v2 (dict_set k1 v1 d)) = Some v2
  ∧ ∀ k, k ≠ k1 → k ≠ k2 →
      dict_get k (dict_set k2 v2 (dict_set k1 v1 d)) = dict_get k d.
Proof.
  intros Hne.
  assert (H1 : dict_get k1 (dict_set k2 v2 (dict_set k1 v1 d)) = Some v1)
    by (by rewrite dict_get_set_ne, dict_get_set_eq).
  split; [|split; [done|split; [apply dict_get_set_eq|]]].
  - rewrite (dict_set_same k1 v1 _ H1). apply dict_set_same, dict_get_set_eq.
  - intros k Hk1 Hk2. by rewrite !dict_get_set_ne.
Qed.

Lemma post_paths_differ (post : Post.t) :
  "blog_posts/" +:+ post_basename post +:+ ".md"
  ≠ "blog_posts/" +:+ post_basename post +:+ ".html".
Proof. intros H. by do 2 apply append_inj_r in H. Qed.

(** X8.  For a post whose files can be written, [save_to_files] writes
    the two files of the post and leaves every other file as it was;
    saving the same post again changes nothing. *)
Theorem save_to_files_idempotent (post : Post.t) (d : Disk) :
  can_save post = true →
  save_to_files post (save_to_files post d) = save_to_files post d
  ∧ dict_get ("blog_posts/" +:+ post_basename post +:+ ".md")
      (blog_posts (save_to_files post d))
    = Some ("# " +:+ Post.title post +:+ nl +:+ nl +:+ Post.content post)
  ∧ dict_get ("blog_posts/" +:+ post_basename post +:+ ".html")
      (blog_posts (save_to_files post d))
    = Some ("<h1>" +:+ Post.title post +:+ "</h1>" +:+ nl +:+ nl
              +:+ Post.content_html post)
  ∧ (∀ path,
       path ≠ "blog_posts/" +:+ post_basename post +:+ ".md" →
       path ≠ "blog_posts/" +:+ post_basename post +:+ ".html" →
       dict_get path (blog_posts (save_to_files post d))
       = dict_get path (blog_posts d))
  ∧ state_file (save_to_files post d) = state_file d
  ∧ stats_file (save_to_files post d) = stats_file d
  ∧ dates_titles_file (save_to_files post d) = dates_titles_file d
  ∧ errors_file (save_to_files post d) = errors_file d.
Proof.
  destruct (dict_two_writes _ _
              ("# " +:+ Post.title post +:+ nl +:+ nl +:+ Post.content post)
              ("<h1>" +:+ Post.title post +:+ "</h1>" +:+ nl +:+ nl
                 +:+ Post.content_html post)
              (blog_posts d) (post_paths_differ post))
    as (Hagain & Hmd & Hhtml & Hother).
  intros _. split; [|by repeat split].
  unfold save_to_files.
  cbn [state_file stats_file dates_titles_file errors_file blog_posts].
  f_equal. exact Hagain.
Qed.

Lemma save_to_files_idempotent_witness :
  can_save (Post.mk "post-7" "Spring" "Spring" "2019-03-01" "<p>Spring</p>" "2019")
  = true
  ∧ map fst
      (blog_posts
         (save_to_files
            (Post.mk "post-7" "Spring" "Spring" "2019-03-01" "<p>Spring</p>" "2019")
            (save_to_files
               (Post.mk "post-7" "Spring" "Spring" "2019-03-01" "<p>Spring</p>"
                  "2019")
               Sample.empty_disk)))
    = ["blog_posts/2019-03-01-post-7-Spring.md";
       "blog_posts/2019-03-01-post-7-Spring.html"].
Proof.
  split; [reflexivity|].
  rewrite (proj1 (save_to_files_idempotent
                    (Post.mk "post-7" "Spring" "Spring" "2019-03-01"
                       "<p>Spring</p>" "2019")
                    Sample.empty_disk eq_refl)).
  reflexivity.
Defined.

(** ** The report of dates and titles *)

Section ReportShape.
Context {E : Externals}.

Lemma write_articles_returns arts text :
  Forall (fun article => is_Some (fromisoformat (date article))) arts →
  write_articles arts text
  = Returned (text +:+ String.concat "" (map article_line arts)).
Proof.
  intros Hall. revert text.
  induction Hall as [|article arts [dt Hdt] _ IH]; intros text.
  - simpl. by rewrite append_empty_r.
  - cbn [write_articles map]. rewrite Hdt, IH, concat_cons.
    assert (Hline : article_line article
                    = strftime dt +:+ " " +:+ title article +:+ nl)
      by (unfold article_line; by rewrite Hdt).
    by rewrite Hline, !append_assoc.
Qed.

(** X9.  [save_dates_titles] returns exactly when [fromisoformat] takes
    the date of every record.  The report then holds the line of every
    year, an empty line and the line of every record, in order.  Whether
    it returns or raises, it touches no other file. *)
Theorem save_dates_titles_returns_iff (sts : Stats) (d : Disk) :
  ((∃ d', save_dates_titles sts d = Returned d')
   ↔ Forall (fun article => is_Some (fromisoformat (date article))) (articles sts))
  ∧ (Forall (fun article => is_Some (fromisoformat (date article))) (articles sts) →
     dates_titles_file (res_value (save_dates_titles sts d))
     = Some (summary_lines (articles_per_year sts) +:+ nl
               +:+ String.concat "" (map article_line (articles sts))))
  ∧ state_file (res_value (save_dates_titles sts d)) = state_file d
  ∧ stats_file (res_value (save_dates_titles sts d)) = stats_file d
  ∧ errors_file (res_value (save_dates_titles sts d)) = errors_file d
  ∧ blog_posts (res_value (save_dates_titles sts d)) = blog_posts d.
Proof.
  split; [split|split].
  - intros [d' Hret]. apply Forall_forall. intros a Ha.
    destruct (fromisoformat (date a)) eqn:Hbad; [by eexists|].
    destruct (save_dates_titles_raises sts d a Ha Hbad) as [d'' Hr]. congruence.
  - intros Hall. unfold save_dates_titles.
    rewrite (write_articles_returns _ _ Hall). eauto.
  - intros Hall. unfold save_dates_titles.
    rewrite (write_articles_returns _ _ Hall). simpl. by rewrite append_assoc.
  - unfold save_dates_titles. by destruct (write_articles _ _).
Qed.

End ReportShape.

(** ** The report of the pages that were not found *)

Lemma str_split_at c s t :
  str_contains c s = false →
  str_split c (s +:+ String c t) = s :: str_split c t.
Proof.
  induction s as [|a s IH]; simpl.
  - by rewrite Ascii.eqb_refl.
  - intros [Ha Hs]%orb_false_iff. by rewrite Ha, (IH Hs).
Qed.

(** X10.  The 404 report can be read back: when no recorded URL holds a
    line feed, the lines of the report are the entries of [errors_404], in
    order (followed by the empty text after the last line feed). *)
Theorem errors_report_lines (st : CrawlState) (d : Disk) :
  Forall (fun url => str_contains (ascii_of_nat 10) url = false) (errors_404 st) →
  ∃ text,
    errors_file (save_errors_404 st d) = Some text
    ∧ str_split (ascii_of_nat 10) text = errors_404 st ++ [""].
Proof.
  intros Hall. eexists. split; [reflexivity|]. unfold errors_text.
  induction Hall as [|url urls Hurl _ IH]; [done|].
  simpl map. rewrite concat_cons. unfold nl at 1.
  rewrite append_assoc. simpl. by rewrite (str_split_at _ _ _ Hurl), IH.
Qed.

Lemma errors_report_lines_witness :
  ∃ text,
    errors_file
      (save_errors_404 (mkCrawlState [] ∅ [Sample.feb; Sample.jan]) Sample.empty_disk)
    = Some text
    ∧ str_split (ascii_of_nat 10) text = [Sample.feb; Sample.jan] ++ [""].
Proof.
  apply (errors_report_lines (mkCrawlState [] ∅ [Sample.feb; Sample.jan])).
  repeat constructor.
Defined.

(** ** The fetcher: how it ends *)

Section FetcherEnds.
Context {E : Externals}.

Lemma retrying_after_failures (net : nat -> Reply) (k n fuel : nat) :
  (∀ i, (n ≤ i < n + k)%nat → net i = Fails None) → (n + k ≤ 5)%nat →
  retrying (k + fuel) n net
  = (fst (retrying fuel (n + k) net),
     failed_attempts n k ++ snd (retrying fuel (n + k) net)).
Proof.
  revert n. induction k as [|k IH]; intros n Hfail Hn.
  - rewrite Nat.add_0_r. simpl. by destruct (retrying fuel n net).
  - change (S k + fuel)%nat with (S (k + fuel)).
    rewrite (retrying_retried (k + fuel) n net None);
      [|lia|apply Hfail; lia|done].
    change (wait_if_retry_after n (Exception (RequestException None))) with NoWait.
    rewrite (IH (S n)); [|intros i Hi; apply Hfail; lia|lia].
    replace (S n + k)%nat with (n + S k)%nat by lia.
    unfold failed_attempts. simpl. done.
Qed.

(** X11.  [fetch_page] ends with the first attempt that is not a failure
    of the request itself: after [k] failed attempts without a response
    ([k] at most 4), each followed by its computed wait, what attempt
    [k + 1] gives is what [fetch_page] gives, be it the page, [None] for a
    404, the [HTTPError] of another error status or a [MaxRetryError]. *)
Theorem fetch_page_ends_at_first_answer (net : nat -> Reply) (k : nat) :
  (k ≤ 4)%nat →
  (∀ i, (1 ≤ i ≤ k)%nat → net i = Fails None) →
  (∀ response, net (S k) ≠ Fails response) →
  fetch_page net
  = (Some (fetch_page_body (net (S k))), failed_attempts 1 k ++ [Get (S k)]).
Proof.
  intros Hk Hfail Hanswer. unfold fetch_page.
  replace 4%nat with (k + (4 - k))%nat by lia.
  rewrite retrying_after_failures; [|intros i Hi; apply Hfail; lia|lia].
  change (1 + k)%nat with (S k).
  assert (Hend : retrying (4 - k) (S k) net
                 = (Some (fetch_page_body (net (S k))), [Get (S k)])).
  { destruct (fetch_page_body (net (S k))) as [soup|e] eqn:Hbody.
    - destruct (4 - k)%nat; simpl; by rewrite Hbody.
    - apply retrying_not_retried; [done|].
      destruct (net (S k)) as [response|response|] eqn:Hnet.
      + unfold fetch_page_body in Hbody.
        destruct (raise_for_status response); [|done].
        destruct (status_code response =? 404); [done|]. by injection Hbody as <-.
      + by destruct (Hanswer response).
      + by injection Hbody as <-. }
  by rewrite Hend.
Qed.

(** X12.  When the request itself fails five times in a row without a
    response, [fetch_page] raises [RetryError] around the last failure,
    after five attempts and waits of 30, 30, 30 and 40 seconds. *)
Theorem fetch_page_gives_up (net : nat -> Reply) :
  (∀ i, (1 ≤ i ≤ 5)%nat → net i = Fails None) →
  fetch_page net
  = (Some (Exception (RetryError (RequestException None))),
     failed_attempts 1 4 ++ [Get 5])
  ∧ gets (failed_attempts 1 4 ++ [Get 5]) = [1; 2; 3; 4; 5]%nat
  ∧ sleeps (failed_attempts 1 4 ++ [Get 5]) = [30; 30; 30; 40].
Proof.
  intros Hfail. split; [|by split].
  unfold fetch_page. change 4%nat with (4 + 0)%nat at 1.
  rewrite retrying_after_failures; [|intros i Hi; apply Hfail; lia|lia].
  change (1 + 4)%nat with 5%nat.
  assert (Hend : retrying 0 5 net
                 = (Some (Exception (RetryError (RequestException None))), [Get 5])).
  { cbn [retrying]. by rewrite (Hfail 5%nat ltac:(lia)). }
  by rewrite Hend.
Qed.

(** X13.  A retried failure whose response has a [Retry-After] header that
    is neither an integer nor a date, or that gives a number of seconds
    that [time.sleep] refuses, makes the hook raise: [ValueError] for a
    header that does not parse and for a negative length,
    [OverflowError] for a length beyond the 9223372036 seconds of the
    clock, either way, [OSError] for another one that the platform does
    not take.  [fetch_page] raises that exception without waiting and
    without a further attempt. *)
Theorem bad_retry_after_aborts
    (fuel n : nat) (net : nat -> Reply) (response : Response) (header : string) :
  (n < 5)%nat →
  net n = Fails (Some response) →
  retry_after response = Some header →
  header ≠ "" →
  (header_seconds n header = None
   ∨ ∃ seconds, header_seconds n header = Some seconds
                ∧ (seconds < 0 ∨ sleep_max < seconds ∨ 9223372036 < seconds)) →
  ∃ e,
    retrying fuel n net = (Some (Exception e), [Get n])
    ∧ (header_seconds n header = None → e = ValueError)
    ∧ ∀ seconds, header_seconds n header = Some seconds →
        (seconds < -9223372036 ∨ 9223372036 < seconds → e = OverflowError)
        ∧ (-9223372036 ≤ seconds < 0 → e = ValueError)
        ∧ (0 ≤ seconds ≤ 9223372036 → e = OSError).
Proof.
  intros Hn Hnet Hheader Hne Hbad.
  pose proof (hook_header n response header Hheader Hne) as Hhook.
  destruct Hbad as [Hnone|(seconds & Hsome & Hrefused)].
  - rewrite Hnone in Hhook. exists ValueError.
    split; [by apply (retrying_hook_raised fuel n net (Some response))|].
    split; [done|]. intros seconds Hsome. congruence.
  - rewrite Hsome in Hhook.
    destruct (sleep_exception seconds) as [e|] eqn:Hsleep.
    + exists e.
      split; [by apply (retrying_hook_raised fuel n net (Some response))|].
      split; [congruence|]. intros seconds' Hs. rewrite Hsome in Hs.
      injection Hs as <-.
      revert Hsleep. unfold sleep_exception.
      destruct (Z.ltb_spec seconds (-9223372036)),
        (Z.ltb_spec 9223372036 seconds), (Z.ltb_spec seconds 0),
        (Z.leb_spec seconds sleep_max); simpl; intros [= <-];
        repeat split; intros; try done; lia.
    + apply sleep_exception_none in Hsleep. lia.
Qed.

End FetcherEnds.

Lemma fetch_page_ends_at_first_answer_witness :
  fetch_page (E := Sample.externals) Sample.flaky
  = (Some (fetch_page_body (Sample.flaky 5)), failed_attempts 1 4 ++ [Get 5]).
Proof.
  apply (fetch_page_ends_at_first_answer (E := Sample.externals) Sample.flaky 4).
  - lia.
  - intros i Hi. unfold Sample.flaky.
    by destruct (Nat.ltb_spec i 5); [|lia].
  - intros response. discriminate.
Defined.

Lemma fetch_page_gives_up_witness :
  fetch_page (E := Sample.externals) Sample.down
  = (Some (Exception (RetryError (RequestException None))),
     failed_attempts 1 4 ++ [Get 5]).
Proof.
  apply (fetch_page_gives_up (E := Sample.externals) Sample.down).
  by intros i _.
Defined.

Lemma bad_retry_after_aborts_witness :
  retrying (E := Sample.externals) 4 1
    (fun _ => Fails (Some (mkResponse 302 (Some "-5") (mkSoup [] []))))
  = (Some (Exception ValueError), [Get 1])
  ∧ retrying (E := Sample.externals) 4 1
      (fun _ => Fails (Some (mkResponse 302 (Some "99999999999999999999")
                               (mkSoup [] []))))
    = (Some (Exception OverflowError), [Get 1]).
Proof.
  split.
  - destruct (bad_retry_after_aborts (E := Sample.externals) 4 1
                (fun _ => Fails (Some (mkResponse 302 (Some "-5") (mkSoup [] []))))
                (mkResponse 302 (Some "-5") (mkSoup [] [])) "-5")
      as (e & Hretry & _ & Hsome).
    + lia.
    + reflexivity.
    + reflexivity.
    + discriminate.
    + right. exists (-5). split; [reflexivity|lia].
    + destruct (Hsome (-5) eq_refl) as (_ & He & _).
      rewrite He in Hretry by lia. exact Hretry.
  - destruct (bad_retry_after_aborts (E := Sample.externals) 4 1
                (fun _ => Fails (Some (mkResponse 302 (Some "99999999999999999999")
                                         (mkSoup [] []))))
                (mkResponse 302 (Some "99999999999999999999") (mkSoup [] []))
                "99999999999999999999")
      as (e & Hretry & _ & Hsome).
    + lia.
    + reflexivity.
    + reflexivity.
    + discriminate.
    + right. exists 99999999999999999999. split; [reflexivity|lia].
    + destruct (Hsome 99999999999999999999 eq_refl) as (He & _).
      rewrite He in Hretry by lia. exact Hretry.
Defined.

(** ** The crawl loop: what it keeps *)

Section CrawlKeeps.
Context {E : Externals}.

Lemma keeps_record_refl w : keeps_record w w.
Proof. by repeat split. Qed.

Lemma keeps_record_trans w1 w2 w3 :
  keeps_record w1 w2 → keeps_record w2 w3 → keeps_record w1 w3.
Proof.
  intros (H1 & H2 & H3) (H4 & H5 & H6).
  repeat split; by etrans.
Qed.

Lemma crawl_iteration_cons fetch w current_url rest :
  urls_to_crawl (state w) = current_url :: rest →
  crawl_iteration fetch w
  = Some (loop_body fetch current_url
            (mkWorld (set_urls_to_crawl rest (state w)) (stats w) (disk w))).
Proof. intros H. unfold crawl_iteration. by rewrite H. Qed.

Lemma iteration_keeps_record fetch w r :
  crawl_iteration fetch w = Some r → keeps_record w (res_value r).
Proof.
  destruct (urls_to_crawl (state w)) as [|current_url rest] eqn:Hurls;
    [by unfold crawl_iteration; rewrite Hurls|].
  rewrite (crawl_iteration_cons _ _ _ _ Hurls). intros [= <-].
  unfold loop_body. simpl. case_bool_decide; [by repeat split|].
  destruct (fetch current_url) as [[soup|]|e].
  - destruct (enqueue_links_spec (extract_archive_links soup)
                (set_urls_to_crawl rest (state w))) as (new & -> & _).
    simpl.
    match goal with
    | |- context [with_disk ?st ?sts ?p] =>
        destruct (with_disk_value st sts p) as (Hst & Hsts & _)
    end.
    unfold keeps_record. rewrite Hst, Hsts, update_stats_articles. simpl.
    split; [set_solver|]. split; [done|]. by apply prefix_app_r.
  - simpl. split; [done|]. split; [by apply prefix_app_r|done].
  - match goal with
    | |- context [with_disk ?st ?sts ?p] =>
        destruct (with_disk_value st sts p) as (Hst & Hsts & _)
    end.
    unfold keeps_record. rewrite Hst, Hsts. by repeat split.
Qed.

(** X14.  The crawl never forgets: whenever the loop ends, with or
    without an exception, every key that was visited is still visited,
    and the 404 list and the records of the statistics still begin with
    what they held. *)
Theorem crawl_loop_keeps_record
    (fuel : nat) (fetch : string -> Outcome) (w : World) (r : Res World) :
  crawl_loop fuel fetch w = Some r → keeps_record w (res_value r).
Proof.
  revert w. induction fuel as [|fuel IH]; intros w; simpl;
    destruct (crawl_iteration fetch w) as [r'|] eqn:Hit.
  - done.
  - intros [= <-]. apply keeps_record_refl.
  - apply iteration_keeps_record in Hit.
    destruct r' as [w'|w']; [|by intros [= <-]].
    intros Hloop%IH. by apply keeps_record_trans with w'.
  - intros [= <-]. apply keeps_record_refl.
Qed.

(** X15.  When the loop returns, nothing is pending. *)
Theorem crawl_loop_returns_empty
    (fuel : nat) (fetch : string -> Outcome) (w w' : World) :
  crawl_loop fuel fetch w = Some (Returned w') → urls_to_crawl (state w') = [].
Proof.
  assert (Hend : ∀ w, crawl_iteration fetch w = None → urls_to_crawl (state w) = []).
  { intros w0 Hit. unfold crawl_iteration in Hit.
    by destruct (urls_to_crawl (state w0)). }
  revert w. induction fuel as [|fuel IH]; intros w; simpl;
    destruct (crawl_iteration fetch w) as [r'|] eqn:Hit.
  - done.
  - intros [= <-]. by apply Hend.
  - destruct r'; [apply IH|done].
  - intros [= <-]. by apply Hend.
Qed.

Lemma update_stats_keeps_conserved (s : Stats) (posts : list Post.t) :
  conserved s → conserved (update_stats s posts).
Proof.
  intros [Hsum Hlen].
  destruct (fold_count_post posts s) as (Hsum' & Htotal' & Harts' & _).
  unfold conserved, update_stats. simpl.
  rewrite Hsum', Htotal', Harts', length_app, length_map. lia.
Qed.

Lemma iteration_stats_conserved fetch w r :
  crawl_iteration fetch w = Some r →
  stats_conserved w → stats_conserved (res_value r).
Proof.
  destruct (urls_to_crawl (state w)) as [|current_url rest] eqn:Hurls;
    [by unfold crawl_iteration; rewrite Hurls|].
  rewrite (crawl_iteration_cons _ _ _ _ Hurls). intros [= <-] [Hmem Hfile].
  unfold loop_body. simpl. case_bool_decide; [by split|].
  assert (Hpersist : ∀ st sts d,
    conserved sts → stats_conserved (res_value (with_disk st sts (persist st sts d)))).
  { intros st sts d Hsts. unfold stats_conserved.
    destruct (with_disk_value st sts (persist st sts d)) as (_ & -> & ->).
    destruct (persist_files st sts d) as [_ ->].
    split; [done|]. by intros s [= <-]. }
  destruct (fetch current_url) as [[soup|]|e].
  - by apply Hpersist, update_stats_keeps_conserved.
  - by split.
  - by apply Hpersist.
Qed.

(** X16.  The statistics stay conserved through a whole crawl: when the
    statistics file is absent or holds conserved statistics, then however
    [crawl_site] ends, [total_articles], the sum of the counts by year and
    the number of records agree, in memory and in the statistics file. *)
Theorem crawl_site_keeps_stats_conserved
    (fuel : nat) (fetch : string -> Outcome) (start_url : string) (d : Disk)
    (r : Res World) :
  (∀ s, stats_file d = Some s → conserved s) →
  crawl_site fuel fetch start_url d = Some r →
  stats_conserved (res_value r).
Proof.
  intros Hfile. unfold crawl_site.
  assert (Hstart : ∀ st, stats_conserved (mkWorld st (load_stats d) d)).
  { intros st. split; [|done]. unfold load_stats. simpl.
    destruct (stats_file d) as [s|]; [by apply Hfile|by split]. }
  generalize (match urls_to_crawl (load_state d) with
              | [] => set_urls_to_crawl [start_url] (load_state d)
              | _ :: _ => load_state d
              end).
  intros st. specialize (Hstart st). revert Hstart.
  generalize (mkWorld st (load_stats d) d). clear. intros w. revert w.
  induction fuel as [|fuel IH]; intros w Hw; simpl;
    destruct (crawl_iteration fetch w) as [r'|] eqn:Hit.
  - done.
  - by intros [= <-].
  - apply iteration_stats_conserved in Hit; [|done].
    destruct r' as [w'|w']; [by apply IH|by intros [= <-]].
  - by intros [= <-].
Qed.

Lemma persist_returns st sts d :
  Forall (fun article => is_Some (fromisoformat (date article))) (articles sts) →
  ∃ d', persist st sts d = Returned d'.
Proof.
  intros Hall. unfold persist, save_dates_titles.
  rewrite (write_articles_returns _ _ Hall). eauto.
Qed.

(** An iteration whose fetch raises, when the report can be written:
    the popped URL goes to the end, and nothing else changes in memory. *)
Lemma failing_iteration fetch w current_url rest e :
  urls_to_crawl (state w) = current_url :: rest →
  extract_unique_part current_url ∉ crawled_urls (state w) →
  fetch current_url = Exception e →
  Forall (fun article => is_Some (fromisoformat (date article)))
    (articles (stats w)) →
  ∃ d',
    crawl_iteration fetch w
    = Some (Returned
              (mkWorld
                 (mkCrawlState (rest ++ [current_url]) (crawled_urls (state w))
                    (errors_404 (state w)))
                 (stats w) d'))
    ∧ state_file d'
      = Some (mkCrawlState (rest ++ [current_url]) (crawled_urls (state w))
                (errors_404 (state w))).
Proof.
  intros Hurls Hnew Hfetch Hdates.
  rewrite (crawl_iteration_cons _ _ _ _ Hurls).
  unfold loop_body. simpl. rewrite (bool_decide_eq_false_2 _ Hnew), Hfetch.
  match goal with
  | |- context [persist ?st ?sts ?d] =>
      destruct (persist_returns st sts d Hdates) as [d' Hp];
      pose proof (persist_files st sts d) as [Hsf _];
      rewrite Hp in *
  end.
  exists d'. by split.
Qed.

(** X17.  Nothing bounds the retries across iterations: when the fetch of
    every pending URL keeps failing (and the report can be written), each
    iteration puts the popped URL back at the end and saves the state;
    after any number of iterations the loop is still running, with the
    same URLs pending, rotated, and nothing else changed in memory. *)
Theorem failing_fetch_never_ends
    (fuel n : nat) (fetch : string -> Outcome) (w : World) :
  urls_to_crawl (state w) ≠ [] →
  pending_fresh (state w) →
  (∀ url, url ∈ urls_to_crawl (state w) →
     urlparse_raises url = false ∧ ∃ e, fetch url = Exception e) →
  Forall (fun article => is_Some (fromisoformat (date article)))
    (articles (stats w)) →
  crawl_loop fuel fetch w = None
  ∧ ∃ w',
      crawl_iterations n fetch w = Some w'
      ∧ urls_to_crawl (state w')
        = Nat.iter n head_to_end (urls_to_crawl (state w))
      ∧ crawled_urls (state w') = crawled_urls (state w)
      ∧ errors_404 (state w') = errors_404 (state w)
      ∧ stats w' = stats w
      ∧ ((0 < n)%nat → state_file (disk w') = Some (state w')).
Proof.
  assert (Hstep : ∀ w0 current_url rest,
    urls_to_crawl (state w0) = current_url :: rest →
    pending_fresh (state w0) →
    (∀ url, url ∈ urls_to_crawl (state w0) →
       urlparse_raises url = false ∧ ∃ e, fetch url = Exception e) →
    Forall (fun article => is_Some (fromisoformat (date article)))
      (articles (stats w0)) →
    ∃ w1,
      crawl_iteration fetch w0 = Some (Returned w1)
      ∧ urls_to_crawl (state w1) = rest ++ [current_url]
      ∧ crawled_urls (state w1) = crawled_urls (state w0)
      ∧ errors_404 (state w1) = errors_404 (state w0)
      ∧ stats w1 = stats w0
      ∧ state_file (disk w1) = Some (state w1)
      ∧ pending_fresh (state w1)
      ∧ (∀ url, url ∈ urls_to_crawl (state w1) →
           urlparse_raises url = false ∧ ∃ e, fetch url = Exception e)).
  { intros w0 current_url rest Hurls Hfresh Hfail Hdates.
    destruct (Hfail current_url) as [_ [e Hfetch]]; [rewrite Hurls; by left|].
    destruct (failing_iteration fetch w0 current_url rest e Hurls
                ltac:(apply Hfresh; rewrite Hurls; by left) Hfetch Hdates)
      as (d' & Hit & Hsf).
    eexists. split; [exact Hit|]. simpl. repeat split; try done.
    - intros url [Hin|Hin%list_elem_of_singleton]%elem_of_app;
        apply Hfresh; rewrite Hurls; [by right|subst url; by left].
    - apply Hfail. rewrite Hurls.
      apply elem_of_app in H as [Hin|Hin%list_elem_of_singleton];
        [by right|subst url; by left].
    - apply Hfail. rewrite Hurls.
      apply elem_of_app in H as [Hin|Hin%list_elem_of_singleton];
        [by right|subst url; by left]. }
  intros Hne Hfresh Hfail Hdates. split.
  - clear n. revert w Hne Hfresh Hfail Hdates.
    induction fuel as [|fuel IH]; intros w Hne Hfresh Hfail Hdates;
      destruct (urls_to_crawl (state w)) as [|current_url rest] eqn:Hurls;
      try done;
      destruct (Hstep w current_url rest Hurls Hfresh
                  ltac:(by rewrite Hurls) Hdates)
        as (w1 & Hit & Hurls1 & _ & _ & Hsts & _ & Hfresh1 & Hfail1);
      simpl; rewrite Hit; [done|].
    apply IH; [rewrite Hurls1; by destruct rest|done|done|by rewrite Hsts].
  - clear fuel. revert w Hne Hfresh Hfail Hdates.
    induction n as [|n IH]; intros w Hne Hfresh Hfail Hdates.
    + exists w. simpl. repeat split; try done. lia.
    + destruct (urls_to_crawl (state w)) as [|current_url rest] eqn:Hurls;
        [done|].
      destruct (Hstep w current_url rest Hurls Hfresh
                  ltac:(by rewrite Hurls) Hdates)
        as (w1 & Hit & Hurls1 & Hcrawled & Herrors & Hsts & Hsf & Hfresh1 & Hfail1).
      destruct (IH w1) as (w' & Hits & Hu & Hc & He & Hs & Hf);
        [rewrite Hurls1; by destruct rest|done|done|by rewrite Hsts|].
      exists w'. cbn [crawl_iterations]. rewrite Hit.
      split; [done|]. rewrite Nat.iter_succ_r.
      split; [by rewrite Hu, Hurls1|].
      split; [congruence|]. split; [congruence|]. split; [congruence|].
      intros _. destruct n as [|n]; [|apply Hf; lia].
      simpl in Hits. by injection Hits as <-.
Qed.

(** X18.  A restart resumes where an iteration that saved left off: after
    an iteration that ended in the [except] branch or processed a page and
    returned, the files give back the state and the statistics in memory,
    and [crawl_site] run on them goes on as the loop would have (while
    something is pending, whatever start URL it is given). *)
Theorem restart_resumes
    (fuel : nat) (fetch : string -> Outcome) (w w' : World)
    (current_url start_url : string) (rest : list string) :
  urls_to_crawl (state w) = current_url :: rest →
  extract_unique_part current_url ∉ crawled_urls (state w) →
  fetch current_url ≠ Result None →
  crawl_iteration fetch w = Some (Returned w') →
  load_state (disk w') = state w'
  ∧ load_stats (disk w') = stats w'
  ∧ (urls_to_crawl (state w') ≠ [] →
     crawl_site fuel fetch start_url (disk w') = crawl_loop fuel fetch w').
Proof.
  intros Hurls Hnew Hfound.
  rewrite (crawl_iteration_cons _ _ _ _ Hurls). intros [= Hit].
  unfold loop_body in Hit. simpl in Hit.
  rewrite (bool_decide_eq_false_2 _ Hnew) in Hit.
  assert (Hfiles : state_file (disk w') = Some (state w')
                   ∧ stats_file (disk w') = Some (stats w')).
  { destruct (fetch current_url) as [[soup|]|e]; [|done|];
      apply with_disk_returned in Hit as (Hst & Hsts & Hp);
      match type of Hp with
      | persist ?st ?sts ?d = _ =>
          pose proof (persist_files st sts d) as [Hsf Hstf];
          rewrite Hp in Hsf, Hstf; simpl in Hsf, Hstf
      end; by rewrite Hst, Hsts. }
  destruct Hfiles as [Hsf Hstf].
  assert (Hls : load_state (disk w') = state w') by (unfold load_state; by rewrite Hsf).
  assert (Hlt : load_stats (disk w') = stats w') by (unfold load_stats; by rewrite Hstf).
  split; [done|]. split; [done|].
  intros Hpending. unfold crawl_site. rewrite Hls, Hlt.
  destruct w' as [st' sts' d']. simpl in *. by destruct (urls_to_crawl st').
Qed.

End CrawlKeeps.

Lemma crawl_loop_keeps_record_witness :
  ∃ r,
    crawl_loop (E := Sample.externals) 3 Sample.scenario (Sample.start Sample.seed)
    = Some r
    ∧ keeps_record (Sample.start Sample.seed) (res_value r).
Proof.
  eexists. split; [vm_compute; reflexivity|].
  apply (crawl_loop_keeps_record (E := Sample.externals) 3 Sample.scenario).
  vm_compute. reflexivity.
Defined.

Lemma crawl_loop_returns_empty_witness :
  ∃ w',
    crawl_loop (E := Sample.externals) 3 Sample.scenario (Sample.start Sample.seed)
    = Some (Returned w')
    ∧ urls_to_crawl (state w') = [].
Proof.
  eexists. split; [vm_compute; reflexivity|].
  apply (crawl_loop_returns_empty (E := Sample.externals) 3 Sample.scenario
           (Sample.start Sample.seed)).
  vm_compute. reflexivity.
Defined.

Lemma crawl_site_keeps_stats_conserved_witness :
  ∃ r,
    crawl_site (E := Sample.externals) 3 Sample.scenario Sample.seed
      Sample.empty_disk = Some r
    ∧ stats_conserved (res_value r).
Proof.
  eexists. split; [vm_compute; reflexivity|].
  apply (crawl_site_keeps_stats_conserved (E := Sample.externals) 3
           Sample.scenario Sample.seed Sample.empty_disk).
  - intros s. discriminate.
  - vm_compute. reflexivity.
Defined.

Lemma failing_fetch_never_ends_witness :
  crawl_loop (E := Sample.externals) 50 (fun _ => Exception MaxRetryError)
    (mkWorld (mkCrawlState [Sample.jan; Sample.feb] ∅ []) Sample.no_stats
       Sample.empty_disk)
  = None
  ∧ ∃ w',
      crawl_iterations (E := Sample.externals) 3 (fun _ => Exception MaxRetryError)
        (mkWorld (mkCrawlState [Sample.jan; Sample.feb] ∅ []) Sample.no_stats
           Sample.empty_disk)
      = Some w'
      ∧ urls_to_crawl (state w') = [Sample.feb; Sample.jan]
      ∧ crawled_urls (state w') = ∅
      ∧ errors_404 (state w') = []
      ∧ stats w' = Sample.no_stats
      ∧ ((0 < 3)%nat → state_file (disk w') = Some (state w')).
Proof.
  apply (failing_fetch_never_ends (E := Sample.externals) 50 3
           (fun _ => Exception MaxRetryError)
           (mkWorld (mkCrawlState [Sample.jan; Sample.feb] ∅ []) Sample.no_stats
              Sample.empty_disk)).
  - discriminate.
  - by apply pending_freshb_spec.
  - intros url Hin. split; [|by eexists].
    simpl in Hin.
    apply elem_of_cons in Hin as [->|Hin]; [reflexivity|].
    apply list_elem_of_singleton in Hin as ->. reflexivity.
  - constructor.
Defined.

Lemma restart_resumes_witness :
  ∃ w',
    crawl_iteration (E := Sample.externals) Sample.scenario (Sample.start Sample.seed)
    = Some (Returned w')
    ∧ load_state (disk w') = state w'
    ∧ load_stats (disk w') = stats w'
    ∧ (urls_to_crawl (state w') ≠ [] →
       crawl_site (E := Sample.externals) 2 Sample.scenario "http://b/" (disk w')
       = crawl_loop (E := Sample.externals) 2 Sample.scenario w').
Proof.
  eexists. split; [vm_compute; reflexivity|].
  apply (restart_resumes (E := Sample.externals) 2 Sample.scenario
           (Sample.start Sample.seed) _ Sample.seed "http://b/" []).
  - reflexivity.
  - by vm_compute.
  - discriminate.
  - vm_compute. reflexivity.
Defined.

(** ** The crawl loop: what a processed page and a bad record entail *)

Section CrawlEntails.
Context {E : Externals}.

(** X19.  No page is processed twice: once an iteration has processed a
    page up to the saving (the files of its posts can be written and
    [urlparse] takes its links), whether the saving returned or raised,
    every later iteration that pops a URL with the same key drops it:
    nothing is fetched, nothing is written, and only the pending entry
    goes. *)
Theorem processed_key_not_fetched_again
    (fetch fetch' : string -> Outcome) (w w2 : World) (r : Res World)
    (soup : Soup) (current_url url2 : string) (rest rest2 : list string) :
  urls_to_crawl (state w) = current_url :: rest →
  urlparse_raises current_url = false →
  extract_unique_part current_url ∉ crawled_urls (state w) →
  fetch current_url = Result (Some soup) →
  Forall (fun post => can_save post = true) (extract_posts soup) →
  Forall (fun link => urlparse_raises link = false) (extract_archive_links soup) →
  crawl_iteration fetch w = Some r →
  keeps_record (res_value r) w2 →
  urls_to_crawl (state w2) = url2 :: rest2 →
  urlparse_raises url2 = false →
  extract_unique_part url2 = extract_unique_part current_url →
  ∃ w3,
    crawl_iteration fetch' w2 = Some (Returned w3)
    ∧ urls_to_crawl (state w3) = rest2
    ∧ crawled_urls (state w3) = crawled_urls (state w2)
    ∧ errors_404 (state w3) = errors_404 (state w2)
    ∧ stats w3 = stats w2
    ∧ disk w3 = disk w2.
Proof.
  intros Hurls _ Hnew Hfetch _ _ Hit (Hkept & _ & _) Hurls2 _ Hkey.
  assert (Hvisited : extract_unique_part url2 ∈ crawled_urls (state w2)).
  { apply Hkept. rewrite Hkey.
    rewrite (crawl_iteration_cons _ _ _ _ Hurls) in Hit. injection Hit as <-.
    unfold loop_body. simpl. rewrite (bool_decide_eq_false_2 _ Hnew), Hfetch.
    match goal with
    | |- context [with_disk ?st ?sts ?p] =>
        destruct (with_disk_value st sts p) as (-> & _ & _)
    end.
    simpl. apply elem_of_union_r. by apply elem_of_singleton. }
  eexists. split;
    [exact (discarded_when_visited fetch' w2 url2 rest2 Hurls2 Hvisited)|done].
Qed.

(** X20.  A record whose date does not parse stops every later saving:
    while the statistics hold such a record, each iteration that ends in
    the [except] branch or processes a page up to the saving leaves
    [crawl_site] with the exception of [save_dates_titles], after the
    state file and the statistics file were written, and the record is
    still there. *)
Theorem bad_record_stops_every_saving
    (fetch : string -> Outcome) (w : World) (article : Article)
    (current_url : string) (rest : list string) :
  article ∈ articles (stats w) →
  fromisoformat (date article) = None →
  urls_to_crawl (state w) = current_url :: rest →
  urlparse_raises current_url = false →
  extract_unique_part current_url ∉ crawled_urls (state w) →
  fetch current_url ≠ Result None →
  (∀ soup, fetch current_url = Result (Some soup) →
     Forall (fun post => can_save post = true) (extract_posts soup)
     ∧ Forall (fun link => urlparse_raises link = false)
         (extract_archive_links soup)) →
  ∃ w',
    crawl_iteration fetch w = Some (Raised w')
    ∧ article ∈ articles (stats w')
    ∧ stats_file (disk w') = Some (stats w')
    ∧ state_file (disk w') = Some (state w').
Proof.
  intros Hin Hbad Hurls _ Hnew Hfound _.
  rewrite (crawl_iteration_cons _ _ _ _ Hurls).
  unfold loop_body. simpl. rewrite (bool_decide_eq_false_2 _ Hnew).
  assert (Hpersist : ∀ st sts d,
    article ∈ articles sts →
    ∃ w', Some (with_disk st sts (persist st sts d)) = Some (Raised w')
          ∧ article ∈ articles (stats w')
          ∧ stats_file (disk w') = Some (stats w')
          ∧ state_file (disk w') = Some (state w')).
  { intros st sts d Hin'.
    destruct (persist_raises st sts d article Hin' Hbad) as [d' Hp].
    pose proof (persist_files st sts d) as [Hsf Hstf]. rewrite Hp in *.
    simpl in *. eexists. by repeat split. }
  destruct (fetch current_url) as [[soup|]|e]; [|done|by apply Hpersist].
  apply Hpersist. rewrite update_stats_articles. apply elem_of_app. by left.
Qed.

End CrawlEntails.

Lemma processed_key_not_fetched_again_witness :
  ∃ w3,
    crawl_iteration (E := Sample.externals) Sample.archive
      (mkWorld (mkCrawlState [Sample.seed] {[""]} []) Sample.no_stats
         Sample.empty_disk)
    = Some (Returned w3)
    ∧ urls_to_crawl (state w3) = []
    ∧ crawled_urls (state w3) = {[""]}
    ∧ errors_404 (state w3) = []
    ∧ stats w3 = Sample.no_stats
    ∧ disk w3 = Sample.empty_disk.
Proof.
  refine (processed_key_not_fetched_again (E := Sample.externals)
            Sample.scenario Sample.archive (Sample.start Sample.seed)
            (mkWorld (mkCrawlState [Sample.seed] {[""]} []) Sample.no_stats
               Sample.empty_disk)
            (loop_body (E := Sample.externals) Sample.scenario Sample.seed
               (mkWorld (mkCrawlState [] ∅ []) Sample.no_stats Sample.empty_disk))
            (mkSoup [] [Sample.jan; Sample.feb]) Sample.seed Sample.seed [] []
            eq_refl eq_refl _ eq_refl _ _ _ _ eq_refl eq_refl eq_refl).
  - by vm_compute.
  - constructor.
  - repeat constructor.
  - vm_compute. reflexivity.
  - split; [|split].
    + intros x Hx. vm_compute in Hx. vm_compute. exact Hx.
    + by exists [].
    + by exists [].
Defined.

Lemma bad_record_stops_every_saving_witness :
  ∃ w',
    crawl_iteration (E := Sample.externals) Sample.scenario
      (mkWorld (mkCrawlState [Sample.jan] ∅ [])
         (mkStats [("unknown", 1)] 1 [mkArticle "" "Hello"]) Sample.empty_disk)
    = Some (Raised w')
    ∧ mkArticle "" "Hello" ∈ articles (stats w')
    ∧ stats_file (disk w') = Some (stats w')
    ∧ state_file (disk w') = Some (state w').
Proof.
  apply (bad_record_stops_every_saving (E := Sample.externals) Sample.scenario
           _ (mkArticle "" "Hello") Sample.jan []).
  - by apply list_elem_of_singleton.
  - reflexivity.
  - reflexivity.
  - reflexivity.
  - by vm_compute.
  - discriminate.
  - intros soup [= <-]. split; repeat constructor.
Defined.
